(** * canvas_scraper: a shallow embedding of the link rewriter, the asset
      fetcher and the item renderer of [canvas_scraper.py].

    Modelling conventions.
    - Text is [string]; a character stands for the code point of the same
      number, so the texts of the model are the Python strings whose code
      points are below 256.  Regular expressions run on [list ascii]; on
      these code points Python's [\d] matches the ten ASCII digits only
      and [re.IGNORECASE] folds the ASCII letters only.
    - A [pathlib.Path] is the list of its components below the file
      system root.
    - The process-wide set [DOWNLOADED_FILE_IDS_GLOBAL], the file system
      and the observable effects (logging, remote calls, directory
      creation) are threaded through an explicit [state]; every effect is
      appended to the [trace] of that state.
    - The collaborators outside the file ([sanitize_filename], [html2text],
      the Canvas API, the iteration order of a Python [set]) are fields of
      the records [Lib] and [Remote]. *)

From Stdlib Require Import ZArith Ascii String List Lia Bool DecimalString.
From stdpp Require Import base decidable option list gmap sets strings.

Import ListNotations.
Local Open Scope string_scope.
Local Open Scope list_scope.
Local Open Scope Z_scope.

#[local] Set Warnings "-clear-no-such-hyp".

(** ** Characters and text *)

Module Text.

Definition chars (s : string) : list ascii := list_ascii_of_string s.
Definition text (l : list ascii) : string := string_of_list_ascii l.

Definition is_digit (c : ascii) : bool :=
  let n := nat_of_ascii c in (48 <=? n)%nat && (n <=? 57)%nat.

Definition is_upper (c : ascii) : bool :=
  let n := nat_of_ascii c in (65 <=? n)%nat && (n <=? 90)%nat.

(** [str.lower] on one ASCII character. *)
Definition lower (c : ascii) : ascii :=
  if is_upper c then ascii_of_nat (nat_of_ascii c + 32) else c.

(** The characters [str.strip] removes, those for which [str.isspace]
    holds: space, tab, newline, vertical tab, form feed, carriage return,
    the four separators 28 to 31, next line (133) and the no-break space
    (160). *)
Definition is_space (c : ascii) : bool :=
  let n := nat_of_ascii c in
  (n =? 32)%nat || ((9 <=? n)%nat && (n <=? 13)%nat) ||
  ((28 <=? n)%nat && (n <=? 31)%nat) || (n =? 133)%nat || (n =? 160)%nat.

Fixpoint lstrip (l : list ascii) : list ascii :=
  match l with
  | c :: l' => if is_space c then lstrip l' else l
  | [] => []
  end.

Definition strip (s : string) : string :=
  text (rev (lstrip (rev (lstrip (chars s))))).

(** Python's truth value of a string. *)
Definition truthy (s : string) : bool :=
  match s with EmptyString => false | _ => true end.

(** [sep.join(l)] *)
Fixpoint join (sep : string) (l : list string) : string :=
  match l with
  | [] => EmptyString
  | [x] => x
  | x :: l' => x +:+ sep +:+ join sep l'
  end.

(** Reading decimal digits: [None] stands for [ValueError]. *)
Fixpoint int_digits (acc : Z) (l : list ascii) : option Z :=
  match l with
  | [] => Some acc
  | c :: l' =>
      if is_digit c
      then int_digits (10 * acc + Z.of_nat (nat_of_ascii c - 48)) l'
      else None
  end.

(** [str(z)] *)
Definition str (z : Z) : string := DecimalString.NilZero.string_of_int (Z.to_int z).

(** How an f-string prints an attribute that may be [None]. *)
Definition fmt (o : option string) : string := default "None" o.

(** Python's truth value of an attribute that may be [None]. *)
Definition truthy_opt (o : option string) : bool :=
  match o with Some s => truthy s | None => false end.

(** [a or b] on strings. *)
Definition or_else (o : option string) (b : string) : string :=
  match o with Some s => if truthy s then s else b | None => b end.

Definition nl : string := String (ascii_of_nat 10) EmptyString.

(** The interpreter's limit on the digits of a decimal string,
    [sys.int_info.default_max_str_digits]; the program does not change
    it. *)
Definition max_str_digits : Z := 4300.

(** [int(s)] on what the program hands to it, a text the scan captured
    with [\d+] or a text for which [isdigit] holds.  A text with a character
    that is no ASCII digit is rejected, and so is a run of more than
    [max_str_digits] digits, leading zeros included; [None] stands for
    [ValueError].  Signs, blanks and underscores, which never reach [int]
    in the program, are read as errors here. *)
Definition int (s : string) : option Z :=
  match chars s with
  | [] => None
  | l =>
      if (max_str_digits <? Z.of_nat (length l))%Z then None
      else int_digits 0 l
  end.

End Text.

(** ** The fragment of Python's [re] the program uses

    A backtracking matcher with Python's priorities: a greedy repetition
    tries the longest run first, a lazy one the shortest, an alternation
    its left branch first.  Every repetition in the program's patterns is
    over a single character class, which keeps the matcher structural. *)

Module Re.

Inductive re : Type :=
| Eps
| Chr (p : ascii -> bool)
| Cat (r1 r2 : re)
| Alt (r1 r2 : re)
| Star (greedy : bool) (p : ascii -> bool)
| Group (n : nat) (r : re).

(** Captured groups, most recent binding first. *)
Definition caps := list (nat * list ascii).

Fixpoint group (n : nat) (cs : caps) : list ascii :=
  match cs with
  | [] => []
  | (m, v) :: cs' => if (m =? n)%nat then v else group n cs'
  end.

Section Matcher.
Context {R : Type}.

Fixpoint star (greedy : bool) (p : ascii -> bool)
    (k : list ascii -> option R) (s : list ascii) : option R :=
  match s with
  | c :: s' =>
      if p c then
        if greedy then
          match star greedy p k s' with
          | Some x => Some x
          | None => k s
          end
        else
          match k s with
          | Some x => Some x
          | None => star greedy p k s'
          end
      else k s
  | [] => k []
  end.

Fixpoint run (r : re) (k : caps -> list ascii -> option R)
    (cs : caps) (s : list ascii) : option R :=
  match r with
  | Eps => k cs s
  | Chr p =>
      match s with
      | c :: s' => if p c then k cs s' else None
      | [] => None
      end
  | Cat r1 r2 => run r1 (fun cs' s' => run r2 k cs' s') cs s
  | Alt r1 r2 =>
      match run r1 k cs s with
      | Some x => Some x
      | None => run r2 k cs s
      end
  | Star g p => star g p (k cs) s
  | Group n r1 =>
      run r1 (fun cs' s' =>
                k ((n, firstn (length s - length s') s) :: cs') s') cs s
  end.
End Matcher.

(** One match attempt anchored at the head of [s]: the groups and the
    unconsumed rest. *)
Definition match_here (r : re) (s : list ascii) : option (caps * list ascii) :=
  run r (fun cs s' => Some (cs, s')) [] s.

(** [pattern.search(s)]: the leftmost match, as a truth value. *)
Fixpoint search (r : re) (s : list ascii) : bool :=
  match match_here r s with
  | Some _ => true
  | None =>
      match s with
      | [] => false
      | _ :: s' => search r s'
      end
  end.

(** [pattern.search(s)], returning the groups of the leftmost match. *)
Fixpoint search_groups (r : re) (s : list ascii) : option caps :=
  match match_here r s with
  | Some (cs, _) => Some cs
  | None =>
      match s with
      | [] => None
      | _ :: s' => search_groups r s'
      end
  end.

(** [pattern.finditer(s)]: the groups of the successive non-overlapping
    matches.  [skip] counts the characters still covered by the previous
    match.  The program's patterns never match the empty string. *)
Fixpoint finditer_from (r : re) (skip : nat) (s : list ascii) : list caps :=
  match skip with
  | S n =>
      match s with
      | [] => []
      | _ :: s' => finditer_from r n s'
      end
  | O =>
      match s with
      | [] => []
      | _ :: s' =>
          match match_here r s with
          | Some (cs, rest) =>
              cs :: finditer_from r (length s - length rest - 1) s'
          | None => finditer_from r O s'
          end
      end
  end.

Definition finditer (r : re) (s : list ascii) : list caps :=
  finditer_from r O s.

(** [pattern.sub(repl, s)] where [repl] builds the replacement from the
    groups of each match. *)
Fixpoint sub_from (r : re) (repl : caps -> list ascii)
    (skip : nat) (s : list ascii) : list ascii :=
  match skip with
  | S n =>
      match s with
      | [] => []
      | _ :: s' => sub_from r repl n s'
      end
  | O =>
      match s with
      | [] => []
      | c :: s' =>
          match match_here r s with
          | Some (cs, rest) =>
              match (length s - length rest)%nat with
              | O => c :: sub_from r repl O s'
              | S n => repl cs ++ sub_from r repl n s'
              end
          | None => c :: sub_from r repl O s'
          end
      end
  end.

Definition sub (r : re) (repl : caps -> list ascii) (s : list ascii) : list ascii :=
  sub_from r repl O s.

(** *** Pattern syntax *)

Definition eqc (c : ascii) : ascii -> bool := fun d => Ascii.eqb c d.
Definition eqci (c : ascii) : ascii -> bool :=
  fun d => Ascii.eqb (Text.lower c) (Text.lower d).
Definition notc (c : ascii) : ascii -> bool := fun d => negb (Ascii.eqb c d).
Definition any : ascii -> bool := fun _ => true.

(** A literal, case-sensitive or under [re.IGNORECASE]. *)
Fixpoint lit_chars (icase : bool) (l : list ascii) : re :=
  match l with
  | [] => Eps
  | c :: l' => Cat (Chr (if icase then eqci c else eqc c)) (lit_chars icase l')
  end.

Definition lit (icase : bool) (s : string) : re := lit_chars icase (Text.chars s).

(** [r?] (greedy) and [\d+]. *)
Definition opt (r : re) : re := Alt r Eps.
Definition digits1 : re := Cat (Chr Text.is_digit) (Star true Text.is_digit).

Fixpoint seq (l : list re) : re :=
  match l with
  | [] => Eps
  | [r] => r
  | r :: l' => Cat r (seq l')
  end.

End Re.

(** ** Paths *)

Module Path.

Definition path := list string.

(** [dir / name]: joining with the empty string leaves [dir] as it is. *)
Definition join (dir : path) (name : string) : path :=
  if Text.truthy name then dir ++ [name] else dir.

(** [p.parent] and [p.name] *)
Definition parent (p : path) : path := removelast p.
Definition name (p : path) : string := List.last p EmptyString.

Fixpoint relpath_from (p start : path) : path :=
  match p, start with
  | x :: p', y :: start' =>
      if String.eqb x y then relpath_from p' start'
      else repeat ".." (length start) ++ p
  | _, _ => repeat ".." (length start) ++ p
  end.

(** [os.path.relpath(p, start)] *)
Definition relpath (p start : path) : path :=
  match relpath_from p start with
  | [] => ["."]
  | r => r
  end.

(** [str(p)] of a relative path. *)
Definition to_string (p : path) : string := Text.join "/" p.

(** Where the relative path [rel] leads from the directory [base]. *)
Fixpoint resolve (base rel : path) : path :=
  match rel with
  | [] => base
  | c :: rel' =>
      if String.eqb c "." then resolve base rel'
      else if String.eqb c ".." then resolve (removelast base) rel'
      else resolve (base ++ [c]) rel'
  end.

(** The directory and all its ancestors, as [mkdir(parents=True)] makes them. *)
Fixpoint ancestors (p : path) (n : nat) : list path :=
  match n with
  | O => [[]]
  | S n' => firstn (S n') p :: ancestors p n'
  end.

End Path.

Abbreviation path := Path.path.

(** ** The collaborators *)

(** The exceptions of [canvasapi.exceptions] the program distinguishes;
    [OtherError] is any other [Exception]. *)
Inductive api_error : Type :=
| ResourceDoesNotExist
| Forbidden
| Unauthorized
| OtherError.

Inductive outcome (A : Type) : Type :=
| Ok (a : A)
| Raise (e : api_error).
Arguments Ok {A} a.
Arguments Raise {A} e.

(** [canvasapi.file.File]: the two attributes the program reads. *)
Record CanvasFile : Type := {
  id : Z;
  display_name : string
}.

Record Page : Type := { body : option string }.

(** [due_at] holds the date already formatted by [strftime];
    [points_possible] the printed form of a non-zero number of points. *)
Record Assignment : Type := {
  description : option string;
  due_at : option string;
  points_possible : option string
}.

(** [canvasapi.module.ModuleItem].  [title] is [None] when the item has no
    title, [html_url] when the attribute is absent. *)
Record ModuleItem : Type := {
  item_id : Z;
  title : option string;
  type : string;
  page_url : string;
  content_id : Z;
  external_url : string;
  html_url : option string
}.

(** [canvasapi.module.Module] with the outcome of [get_module_items]. *)
Record Module_ : Type := {
  module_id : Z;
  module_name : option string;
  get_module_items : outcome (list ModuleItem)
}.

(** The libraries: [pathvalidate], [html2text] and the iteration order of
    Python's [set] of strings, which is a duplicate-free enumeration of the
    inserted elements in an order of the interpreter's choosing. *)
Record Lib : Type := {
  sanitize_filename : string -> string;
  html2text_handle : string -> string;
  html2text_html2text : string -> string;
  set_iter : list string -> list string;
  set_iter_NoDup : forall l, NoDup (set_iter l);
  set_iter_elem : forall l x, x ∈ set_iter l <-> x ∈ l
}.

(** One course of the remote service.  [download_result i t] tells whether
    the download of file [i] succeeds when the fetcher is entered after [t]
    recorded effects, so an attempt may fail and a later one succeed. *)
Record Remote : Type := {
  file_display_name : Z -> outcome string;
  download_result : Z -> nat -> bool;
  get_page : string -> outcome Page;
  get_assignment : Z -> outcome Assignment
}.

(** [course.get_file(i)]: the service answers with the file whose
    identifier was asked for. *)
Definition get_file (C : Remote) (i : Z) : outcome CanvasFile :=
  match file_display_name C i with
  | Ok n => Ok {| id := i; display_name := n |}
  | Raise e => Raise e
  end.

(** ** State and effects *)

Inductive message : Type :=
| AlreadyProcessed (f : CanvasFile)
| Downloading (f : CanvasFile) (file_path : path)
| DownloadFailed (f : CanvasFile)
| NameLookupFailed (file_id_int : Z)
| EmbeddedNotFound (file_id : string)
| InvalidFileId (file_id : string)
| EmbeddedError (file_id : string)
| ProcessingItem (title : option string) (type : string)
| UnsupportedItem (type : string) (title : option string)
| ItemNotFound (title : option string)
| ItemForbidden (title : option string)
| ItemError (title : option string)
| ProcessingModule (name : option string)
| ModuleItemsFailed (name : option string)
| ModuleFinished (name : option string) (readme_file_path : path)
| CourseStarted (name : option string) (course_id : Z)
| CourseUnauthorized (name : option string)
| CourseForbidden (name : option string)
| CourseError (name : option string)
| CourseFinished (name : option string).

Inductive level : Type := DEBUG | INFO | WARNING | ERROR.

(** The level each message is logged at in the source. *)
Definition level_of (m : message) : level :=
  match m with
  | AlreadyProcessed _ => DEBUG
  | Downloading _ _ | ProcessingItem _ _ | ProcessingModule _
  | ModuleFinished _ _ | CourseStarted _ _ | CourseFinished _ => INFO
  | NameLookupFailed _ | EmbeddedNotFound _ | UnsupportedItem _ _ => WARNING
  | DownloadFailed _ | InvalidFileId _ | EmbeddedError _
  | ItemNotFound _ | ItemForbidden _ | ItemError _
  | ModuleItemsFailed _ | CourseUnauthorized _ | CourseForbidden _
  | CourseError _ => ERROR
  end.

Inductive event : Type :=
| Log (m : message)
| Mkdir (p : path)
| GetFile (i : Z)
| GetPage (slug : string)
| GetAssignment (i : Z)
| Download (i : Z) (file_path : path) (ok : bool)
| WriteText (file_path : path) (content : string).

Record state : Type := {
  DOWNLOADED_FILE_IDS_GLOBAL : gset Z;
  dirs : gset path;
  files : gset path;
  trace : list event
}.

Definition emit (e : event) (st : state) : state :=
  {| DOWNLOADED_FILE_IDS_GLOBAL := DOWNLOADED_FILE_IDS_GLOBAL st;
     dirs := dirs st;
     files := files st;
     trace := trace st ++ [e] |}.

Definition logger (m : message) (st : state) : state := emit (Log m) st.

(** [p.mkdir(parents=True, exist_ok=True)] *)
Definition mkdir (p : path) (st : state) : state :=
  {| DOWNLOADED_FILE_IDS_GLOBAL := DOWNLOADED_FILE_IDS_GLOBAL st;
     dirs := list_to_set (Path.ancestors p (length p)) ∪ dirs st;
     files := files st;
     trace := trace st ++ [Mkdir p] |}.

(** A successful [canvas_file_obj.download(file_path)] followed by
    [DOWNLOADED_FILE_IDS_GLOBAL.add(canvas_file_obj.id)].  A download that
    raises is taken to leave no file behind. *)
Definition downloaded (f : CanvasFile) (file_path : path) (st : state) : state :=
  {| DOWNLOADED_FILE_IDS_GLOBAL := {[id f]} ∪ DOWNLOADED_FILE_IDS_GLOBAL st;
     dirs := dirs st;
     files := {[file_path]} ∪ files st;
     trace := trace st ++ [Download (id f) file_path true] |}.

(** [open(file_path, 'w').write(content)] *)
Definition write_text (file_path : path) (content : string) (st : state) : state :=
  {| DOWNLOADED_FILE_IDS_GLOBAL := DOWNLOADED_FILE_IDS_GLOBAL st;
     dirs := dirs st;
     files := {[file_path]} ∪ files st;
     trace := trace st ++ [WriteText file_path content] |}.

Definition initial_state : state :=
  {| DOWNLOADED_FILE_IDS_GLOBAL := ∅; dirs := ∅; files := ∅; trace := [] |}.

(** ** The program *)

Section Program.
Context (L : Lib) (C : Remote).

(** [convert_html_to_markdown] *)
Definition convert_html_to_markdown (html_content : string) : string :=
  if negb (Text.truthy html_content) then EmptyString
  else html2text_handle L html_content.

(** [download_canvas_file_object]: [None] is the function's [None]. *)
Definition download_canvas_file_object
    (canvas_file_obj : CanvasFile) (target_dir : path) (st : state)
    : option path * state :=
  if decide (id canvas_file_obj ∈ DOWNLOADED_FILE_IDS_GLOBAL st) then
    (Some (Path.join target_dir
             (sanitize_filename L (display_name canvas_file_obj))),
     logger (AlreadyProcessed canvas_file_obj) st)
  else
    let sanitized_filename_str :=
      sanitize_filename L (display_name canvas_file_obj) in
    let file_path := Path.join target_dir sanitized_filename_str in
    let st1 := logger (Downloading canvas_file_obj file_path) st in
    if download_result C (id canvas_file_obj) (length (trace st)) then
      (Some file_path, downloaded canvas_file_obj file_path st1)
    else
      (None,
       logger (DownloadFailed canvas_file_obj)
         (emit (Download (id canvas_file_obj) file_path false) st1)).

(** *** The patterns of [extract_and_download_embedded_files] *)

Definition dquote : ascii := ascii_of_nat 34.
Definition squote : ascii := ascii_of_nat 39.

(** The class of every character but the two quotes. *)
Definition not_quote (c : ascii) : bool :=
  negb (Ascii.eqb c dquote) && negb (Ascii.eqb c squote).

Definition not_dquote : ascii -> bool := Re.notc dquote.
Definition not_gt : ascii -> bool := Re.notc ">"%char.

(** [file_id_pattern] (line 97): the literal [/files/], group 1 of one or
    more digits, then optionally a slash, [download] or [preview], and
    any run of characters other than the two quotes. *)
Definition file_id_pattern : Re.re :=
  Re.seq
    [ Re.lit false "/files/";
      Re.Group 1 Re.digits1;
      Re.opt (Re.seq [ Re.lit false "/";
                       Re.Alt (Re.lit false "download") (Re.lit false "preview");
                       Re.Star true not_quote ]) ].

(** [img_pattern] (line 137), compiled with [re.IGNORECASE]: group 1 is
    the tag opening up to and including the quote after [src=]; then any
    run without a double quote, [/files/], the identifier, the optional
    [/preview] or [/download] suffix; group 2 is the rest of the attribute
    value; group 3 the closing quote and the rest of the tag. *)
Definition img_pattern (file_id : string) : Re.re :=
  Re.seq
    [ Re.Group 1 (Re.seq [ Re.lit true "<img"; Re.Star true not_gt;
                           Re.lit true "src="; Re.Chr (Re.eqc dquote) ]);
      Re.Star true not_dquote;
      Re.lit true "/files/";
      Re.lit true file_id;
      Re.opt (Re.seq [ Re.lit true "/";
                       Re.Alt (Re.lit true "preview") (Re.lit true "download");
                       Re.Star true not_quote ]);
      Re.Group 2 (Re.Star true not_dquote);
      Re.Group 3 (Re.seq [ Re.Chr (Re.eqc dquote); Re.Star true not_gt;
                           Re.lit true ">" ]) ].

(** [link_text_pattern] (line 143), compiled with
    [re.IGNORECASE | re.DOTALL]: an anchor whose [href] holds [/files/]
    and the identifier; group 1 is the shortest text up to the closing
    tag. *)
Definition link_text_pattern (file_id : string) : Re.re :=
  Re.seq
    [ Re.lit true "<a"; Re.Star true not_gt;
      Re.lit true "href="; Re.Chr (Re.eqc dquote);
      Re.Star true not_dquote;
      Re.lit true "/files/";
      Re.lit true file_id;
      Re.Star true not_dquote;
      Re.Chr (Re.eqc dquote);
      Re.Star true not_gt;
      Re.lit true ">";
      Re.Group 1 (Re.Star false Re.any);
      Re.lit true "</a>" ].

(** [a_pattern] (line 153), compiled with [re.IGNORECASE]: as
    [img_pattern] for an anchor's [href], group 3 being the closing quote
    alone. *)
Definition a_pattern (file_id : string) : Re.re :=
  Re.seq
    [ Re.Group 1 (Re.seq [ Re.lit true "<a"; Re.Star true not_gt;
                           Re.lit true "href="; Re.Chr (Re.eqc dquote) ]);
      Re.Star true not_dquote;
      Re.lit true "/files/";
      Re.lit true file_id;
      Re.opt (Re.seq [ Re.lit true "/";
                       Re.Alt (Re.lit true "download") (Re.lit true "preview");
                       Re.Star true not_quote ]);
      Re.Group 2 (Re.Star true not_dquote);
      Re.Group 3 (Re.Chr (Re.eqc dquote)) ].

(** The replacement template of lines 138 and 154: group 1, the relative
    path, group 2, group 3.  The relative paths the program builds start
    with [_files] and hold no backslash once sanitized, so the template's
    only escapes are the three group references. *)
Definition relink (relative_path : string) (cs : Re.caps) : list ascii :=
  Re.group 1 cs ++ Text.chars relative_path ++ Re.group 2 cs ++ Re.group 3 cs.

(** [set(match.group(1) for match in file_id_pattern.finditer(html_content))],
    in the order the loop will visit it. *)
Definition found_file_ids (html_content : string) : list string :=
  set_iter L
    (map (fun cs => Text.text (Re.group 1 cs))
       (Re.finditer file_id_pattern (Text.chars html_content))).

(** The local state of the loop: [modified_html] and
    [downloaded_item_links_md]. *)
Record rewriting : Type := {
  modified_html : string;
  downloaded_item_links_md : list string
}.

(** Line 128: the path of the local file relative to the directory of the
    module's README. *)
Definition relative_path_of (local_file_path module_readme_path : path) : string :=
  Path.to_string (Path.relpath local_file_path (Path.parent module_readme_path)).

(** Lines 143-149: the text of the first anchor to the file, read from the
    original fragment, or else the sanitized display name. *)
Definition link_text_of (html_content file_id : string)
    (canvas_file_obj : CanvasFile) : string :=
  let match_link_text :=
    Re.search_groups (link_text_pattern file_id) (Text.chars html_content) in
  let link_text := sanitize_filename L (display_name canvas_file_obj) in
  match match_link_text with
  | Some cs =>
      let temp_text :=
        Text.strip (html2text_html2text L (Text.text (Re.group 1 cs))) in
      if Text.truthy temp_text then temp_text else link_text
  | None => link_text
  end.

(** Line 157: the bullet of the side list. *)
Definition markdown_link (link_text relative_path : string) : string :=
  "* [" +:+ link_text +:+ "](" +:+ relative_path +:+ ")".

(** Lines 127-157: the rewriting of one resolved file.  The image test and
    the anchor text are read from the original [html_content]; the
    substitutions run on [modified_html]. *)
Definition rewrite_links (html_content file_id : string)
    (canvas_file_obj : CanvasFile) (local_file_path module_readme_path : path)
    (w : rewriting) : rewriting :=
  let relative_path := relative_path_of local_file_path module_readme_path in
  let modified_html1 :=
    Text.text (Re.sub (img_pattern file_id) (relink relative_path)
                 (Text.chars (modified_html w))) in
  if negb (Re.search (img_pattern file_id) (Text.chars html_content)) then
    let link_text := link_text_of html_content file_id canvas_file_obj in
    {| modified_html :=
         Text.text (Re.sub (a_pattern file_id) (relink relative_path)
                      (Text.chars modified_html1));
       downloaded_item_links_md :=
         downloaded_item_links_md w ++ [markdown_link link_text relative_path] |}
  else
    {| modified_html := modified_html1;
       downloaded_item_links_md := downloaded_item_links_md w |}.

(** The body of the loop over [found_file_ids] (lines 106-165). *)
Definition process_file_id (html_content : string)
    (files_subdir module_readme_path : path) (file_id : string)
    (ws : rewriting * state) : rewriting * state :=
  let '(w, st) := ws in
  match Text.int file_id with
  | None => (w, logger (InvalidFileId file_id) st)
  | Some file_id_int =>
      if decide (file_id_int ∈ DOWNLOADED_FILE_IDS_GLOBAL st) then
        let st1 := emit (GetFile file_id_int) st in
        match get_file C file_id_int with
        | Ok canvas_file_obj =>
            let sanitized_filename_str :=
              sanitize_filename L (display_name canvas_file_obj) in
            let local_file_path := Path.join files_subdir sanitized_filename_str in
            (rewrite_links html_content file_id canvas_file_obj
               local_file_path module_readme_path w, st1)
        | Raise ResourceDoesNotExist =>
            (w, logger (NameLookupFailed file_id_int) st1)
        | Raise _ => (w, logger (EmbeddedError file_id) st1)
        end
      else
        let st1 := emit (GetFile file_id_int) st in
        match get_file C file_id_int with
        | Ok canvas_file_obj =>
            match download_canvas_file_object canvas_file_obj files_subdir st1 with
            | (Some local_file_path, st2) =>
                (rewrite_links html_content file_id canvas_file_obj
                   local_file_path module_readme_path w, st2)
            | (None, st2) => (w, st2)
            end
        | Raise ResourceDoesNotExist =>
            (w, logger (EmbeddedNotFound file_id) st1)
        | Raise _ => (w, logger (EmbeddedError file_id) st1)
        end
  end.

(** [extract_and_download_embedded_files]: [html_content] is [None] when
    the caller passes [None]. *)
Definition extract_and_download_embedded_files
    (html_content : option string) (files_subdir module_readme_path : path)
    (st : state) : (option string * list string) * state :=
  match html_content with
  | None => ((None, []), st)
  | Some html =>
      if negb (Text.truthy html) then ((Some html, []), st)
      else
        let st1 := mkdir files_subdir st in
        let '(w, st2) :=
          fold_left
            (fun ws file_id =>
               process_file_id html files_subdir module_readme_path file_id ws)
            (found_file_ids html)
            ({| modified_html := html; downloaded_item_links_md := [] |}, st1) in
        ((Some (modified_html w), set_iter L (downloaded_item_links_md w)), st2)
  end.

(** *** [process_module_item] *)

(** The separator appended to every item's fragment. *)
Definition separator : string := Text.nl +:+ "---" +:+ Text.nl +:+ Text.nl.

(** Lines 196-201 and 222-227: rewrite the links of an HTML body, convert
    it and append the list of referenced files. *)
Definition render_html (html : string) (files_subdir module_readme_path : path)
    (st : state) : string * state :=
  let '((processed_html, embedded_file_links_md), st1) :=
    extract_and_download_embedded_files (Some html) files_subdir
      module_readme_path st in
  (convert_html_to_markdown (default EmptyString processed_html) +:+
   match embedded_file_links_md with
   | [] => EmptyString
   | _ => Text.nl +:+ Text.nl +:+ "**Referenced Files:**" +:+ Text.nl +:+
          Text.join Text.nl embedded_file_links_md
   end,
   st1).

(** The body of the [try] of [process_module_item]: the Markdown built so
    far and the exception that interrupted it, if any. *)
Definition item_body (item : ModuleItem) (files_subdir module_readme_path : path)
    (st : state) : (string * option api_error) * state :=
  let t := Text.fmt (title item) in
  if String.eqb (type item) "Page" then
    let md := "## " +:+ t +:+ Text.nl +:+ Text.nl in
    let st1 := emit (GetPage (page_url item)) st in
    match get_page C (page_url item) with
    | Raise e => ((md, Some e), st1)
    | Ok page =>
        if Text.truthy_opt (body page) then
          let '(md', st2) :=
            render_html (default EmptyString (body page)) files_subdir
              module_readme_path st1 in
          ((md +:+ md', None), st2)
        else ((md +:+ "*(This page has no content)*" +:+ Text.nl, None), st1)
    end
  else if String.eqb (type item) "File" then
    let st1 := emit (GetFile (content_id item)) st in
    match get_file C (content_id item) with
    | Raise e => ((EmptyString, Some e), st1)
    | Ok canvas_file_obj =>
        match download_canvas_file_object canvas_file_obj files_subdir st1 with
        | (Some local_file_path, st2) =>
            let relative_file_path :=
              Path.to_string
                (Path.relpath local_file_path (Path.parent module_readme_path)) in
            (("* **File:** [" +:+ display_name canvas_file_obj +:+ "](" +:+
              relative_file_path +:+ ")" +:+ Text.nl, None), st2)
        | (None, st2) => ((EmptyString, None), st2)
        end
    end
  else if String.eqb (type item) "ExternalUrl" then
    (("* **External URL:** [" +:+ t +:+ "](" +:+ external_url item +:+ ")" +:+
      Text.nl, None), st)
  else if String.eqb (type item) "SubHeader" then
    (("### " +:+ t +:+ Text.nl +:+ Text.nl, None), st)
  else if String.eqb (type item) "Assignment" then
    let md := "## Assignment: " +:+ t +:+ Text.nl +:+ Text.nl in
    let st1 := emit (GetAssignment (content_id item)) st in
    match get_assignment C (content_id item) with
    | Raise e => ((md, Some e), st1)
    | Ok assignment =>
        let '(md1, st2) :=
          if Text.truthy_opt (description assignment) then
            let '(md', st2) :=
              render_html (default EmptyString (description assignment))
                files_subdir module_readme_path st1 in
            (md +:+ md', st2)
          else
            (md +:+ "*(This assignment has no description)*" +:+ Text.nl, st1) in
        let md2 :=
          match due_at assignment with
          | Some d =>
              if Text.truthy d
              then md1 +:+ Text.nl +:+ "*Due: " +:+ d +:+ "*" +:+ Text.nl
              else md1
          | None => md1
          end in
        let md3 :=
          match points_possible assignment with
          | Some pts => md2 +:+ "*Points: " +:+ pts +:+ "*" +:+ Text.nl
          | None => md2
          end in
        ((md3, None), st2)
    end
  else if String.eqb (type item) "Discussion" then
    let md := "## Discussion: " +:+ t +:+ Text.nl +:+ Text.nl in
    match html_url item with
    | Some u =>
        ((md +:+ "*Link to discussion on Canvas: [" +:+ t +:+ "](" +:+ u +:+
          ")*" +:+ Text.nl, None), st)
    | None =>
        ((md +:+ "*(Link not available, access through Canvas module)*" +:+
          Text.nl, None), st)
    end
  else if String.eqb (type item) "Quiz" then
    let md := "## Quiz: " +:+ t +:+ Text.nl +:+ Text.nl in
    match html_url item with
    | Some u =>
        ((md +:+ "*Link to quiz on Canvas: [" +:+ t +:+ "](" +:+ u +:+ ")*" +:+
          Text.nl, None), st)
    | None =>
        ((md +:+ "*(Link not available, access through Canvas module)*" +:+
          Text.nl, None), st)
    end
  else
    let md := "* **" +:+ type item +:+ ":** " +:+ t +:+ " " in
    let md1 :=
      match html_url item with
      | Some u =>
          if Text.truthy u then md +:+ " ([View on Canvas](" +:+ u +:+ "))" else md
      | None => md
      end in
    ((md1 +:+ Text.nl, None), logger (UnsupportedItem (type item) (title item)) st).

(** The notice written into the document for an exception caught at
    lines 264-272. *)
Definition failure_notice (e : api_error) (title : option string) : string :=
  match e with
  | ResourceDoesNotExist =>
      "*Item '" +:+ Text.fmt title +:+
      "' could not be retrieved (Resource not found).*" +:+ Text.nl
  | Forbidden =>
      "*Item '" +:+ Text.fmt title +:+
      "' could not be retrieved (Access forbidden).*" +:+ Text.nl
  | _ =>
      "*An error occurred while processing item '" +:+ Text.fmt title +:+
      "'.*" +:+ Text.nl
  end.

Definition failure_message (e : api_error) (title : option string) : message :=
  match e with
  | ResourceDoesNotExist => ItemNotFound title
  | Forbidden => ItemForbidden title
  | _ => ItemError title
  end.

(** [process_module_item].  The unused [item_title] of line 177 is left
    out. *)
Definition process_module_item (item : ModuleItem) (module_path : path)
    (st : state) : string * state :=
  let st0 := logger (ProcessingItem (title item) (type item)) st in
  let files_subdir := Path.join module_path "_files" in
  let st1 := mkdir files_subdir st0 in
  let module_readme_path := Path.join module_path "README.md" in
  let '((item_md_content, raised), st2) :=
    item_body item files_subdir module_readme_path st1 in
  match raised with
  | None => (item_md_content +:+ separator, st2)
  | Some e =>
      ((item_md_content +:+ failure_notice e (title item)) +:+ separator,
       logger (failure_message e (title item)) st2)
  end.

(** The exception raised by the fetch of the item's own content (lines
    193, 206 and 220), if it raises. *)
Definition content_fetch_error (item : ModuleItem) : option api_error :=
  if String.eqb (type item) "Page" then
    match get_page C (page_url item) with Raise e => Some e | Ok _ => None end
  else if String.eqb (type item) "File" then
    match get_file C (content_id item) with Raise e => Some e | Ok _ => None end
  else if String.eqb (type item) "ExternalUrl" then None
  else if String.eqb (type item) "SubHeader" then None
  else if String.eqb (type item) "Assignment" then
    match get_assignment C (content_id item) with
    | Raise e => Some e
    | Ok _ => None
    end
  else None.

(** *** [process_module] *)

Definition process_module (module : Module_) (course_path : path)
    (st : state) : state :=
  let module_name_ :=
    sanitize_filename L
      (Text.or_else (module_name module)
         ("Untitled_Module_" +:+ Text.str (module_id module))) in
  let st0 := logger (ProcessingModule (module_name module)) st in
  let module_path := Path.join course_path module_name_ in
  let st1 := mkdir module_path st0 in
  let module_readme_content :=
    "# Module: " +:+ Text.fmt (module_name module) +:+ Text.nl +:+ Text.nl in
  match get_module_items module with
  | Raise _ =>
      write_text (Path.join module_path "README.md")
        (module_readme_content +:+
         "**ERROR: Could not retrieve items for this module.**" +:+ Text.nl)
        (logger (ModuleItemsFailed (module_name module)) st1)
  | Ok module_items =>
      let '(content, st2) :=
        fold_left
          (fun acc item =>
             let '(item_md, st') :=
               process_module_item item module_path (snd acc) in
             (fst acc +:+ item_md, st'))
          module_items (module_readme_content, st1) in
      let readme_file_path := Path.join module_path "README.md" in
      logger (ModuleFinished (module_name module) readme_file_path)
        (write_text readme_file_path content st2)
  end.

End Program.

(** *** [process_course] and the loop of [main] *)

(** [canvasapi.course.Course] with the outcome of [get_modules] and the
    remote calls the course answers. *)
Record Course : Type := {
  course_id : Z;
  course_name : option string;
  get_modules : outcome (list Module_);
  remote : Remote
}.

Definition process_course (L : Lib) (course : Course) (output_base_dir : path)
    (st : state) : state :=
  let course_name_ :=
    sanitize_filename L
      (Text.or_else (course_name course)
         ("Untitled_Course_" +:+ Text.str (course_id course))) in
  let st0 := logger (CourseStarted (course_name course) (course_id course)) st in
  let course_path := Path.join output_base_dir course_name_ in
  let st1 := mkdir course_path st0 in
  let st2 :=
    match get_modules course with
    | Ok modules =>
        fold_left
          (fun st' module => process_module L (remote course) module course_path st')
          modules st1
    | Raise Unauthorized => logger (CourseUnauthorized (course_name course)) st1
    | Raise Forbidden => logger (CourseForbidden (course_name course)) st1
    | Raise _ => logger (CourseError (course_name course)) st1
    end in
  logger (CourseFinished (course_name course)) st2.

(** The last loop of [main], over the courses to process. *)
Definition process_courses (L : Lib) (courses_to_process : list Course)
    (output_path : path) (st : state) : state :=
  fold_left (fun st' course => process_course L course output_path st')
    courses_to_process st.

(** *** [main]

    [main] is modelled from the parsed arguments on (line 352).  Its own
    messages and its calls to the session are collected in a log of their
    own, in the order they happen; the effects on the registry and on the
    file system go to the [state] as everywhere else.  [logger.setLevel]
    only filters what is printed and is left out. *)

Module Tokens.

(** [s.split(sep)] on characters: one field more than separators. *)
Fixpoint split_chars (sep : ascii) (l : list ascii) : list (list ascii) :=
  match l with
  | [] => [[]]
  | c :: l' =>
      if Ascii.eqb c sep then [] :: split_chars sep l'
      else
        match split_chars sep l' with
        | w :: ws => (c :: w) :: ws
        | [] => [[c]]
        end
  end.

Definition split (sep : ascii) (s : string) : list string :=
  map Text.text (split_chars sep (Text.chars s)).

(** The characters for which [str.isdigit] holds: the ASCII digits and
    the superscripts two (178), three (179) and one (185), which [int]
    rejects. *)
Definition is_digit_char (c : ascii) : bool :=
  let n := nat_of_ascii c in
  Text.is_digit c || (n =? 178)%nat || (n =? 179)%nat || (n =? 185)%nat.

(** [s.isdigit()]: some character, and digit characters only. *)
Definition isdigit (s : string) : bool :=
  match Text.chars s with
  | [] => false
  | l => forallb is_digit_char l
  end.

(** [[id.strip() for id in course_ids.split(',')]] (line 373). *)
Definition course_id_fields (course_ids : string) : list string :=
  map Text.strip (split ","%char course_ids).

End Tokens.

(** The arguments [main] reads after parsing; [output_dir] is the path
    [Path(args.output_dir)]. *)
Record Args : Type := {
  api_url : option string;
  api_key : option string;
  course_ids : option string;
  output_dir : path
}.

(** The Canvas session: [get_current_user] stands for the construction of
    the client followed by [canvas.get_current_user().name]. *)
Record Session : Type := {
  get_current_user : outcome string;
  get_course : Z -> outcome Course;
  get_courses : outcome (list Course)
}.

Inductive main_event : Type :=
| MissingCredentials
| Connected (user : string)
| ConnectionUnauthorized
| ConnectionFailed
| InvalidCourseId (course_id : string)
| LookUpCourse (i : Z)
| CourseNotFound (course_id : string)
| CourseLookupFailed (course_id : string)
| FetchingAllCourses
| ListCourses
| CourseListFailed
| NoCourses
| RefetchCourse (i : Z)
| CourseFailed (i : Z)
| Completed.

(** Lines 374-384: one field of [--course-ids]. *)
Definition select_course (S : Session) (acc : list Course * list main_event)
    (course_id : string) : list Course * list main_event :=
  let '(courses_to_process, log) := acc in
  if negb (Tokens.isdigit course_id) then
    (courses_to_process, log ++ [InvalidCourseId course_id])
  else
    match Text.int course_id with
    | None => (courses_to_process, log ++ [CourseLookupFailed course_id])
    | Some i =>
        match get_course S i with
        | Ok course => (courses_to_process ++ [course], log ++ [LookUpCourse i])
        | Raise ResourceDoesNotExist =>
            (courses_to_process, log ++ [LookUpCourse i; CourseNotFound course_id])
        | Raise _ =>
            (courses_to_process,
             log ++ [LookUpCourse i; CourseLookupFailed course_id])
        end
    end.

(** Lines 371-394: the courses to process. *)
Definition select_courses (S : Session) (course_ids : option string)
    : list Course * list main_event :=
  if Text.truthy_opt course_ids then
    fold_left (select_course S)
      (Tokens.course_id_fields (default EmptyString course_ids)) ([], [])
  else
    match get_courses S with
    | Ok available_courses => (available_courses, [FetchingAllCourses; ListCourses])
    | Raise _ => ([], [FetchingAllCourses; ListCourses; CourseListFailed])
    end.

(** Lines 401-409: one course of the final loop; a course without a name
    is fetched again in full. *)
Definition run_course (L : Lib) (S : Session) (output_path : path)
    (acc : list main_event * state) (course : Course)
    : list main_event * state :=
  let '(log, st) := acc in
  match course_name course with
  | None =>
      match get_course S (course_id course) with
      | Ok full_course =>
          (log ++ [RefetchCourse (course_id course)],
           process_course L full_course output_path st)
      | Raise _ =>
          (log ++ [RefetchCourse (course_id course);
                   CourseFailed (course_id course)], st)
      end
  | Some _ => (log, process_course L course output_path st)
  end.

(** [main] from line 352. *)
Definition main (L : Lib) (args : Args) (S : Session) (st : state)
    : list main_event * state :=
  if negb (Text.truthy_opt (api_url args)) || negb (Text.truthy_opt (api_key args))
  then ([MissingCredentials], st)
  else
    let output_path := output_dir args in
    let st1 := mkdir output_path st in
    match get_current_user S with
    | Raise Unauthorized => ([ConnectionUnauthorized], st1)
    | Raise _ => ([ConnectionFailed], st1)
    | Ok user =>
        let '(courses_to_process, log) := select_courses S (course_ids args) in
        match courses_to_process with
        | [] => (Connected user :: log ++ [NoCourses], st1)
        | _ =>
            let '(log', st2) :=
              fold_left (run_course L S output_path) courses_to_process ([], st1) in
            (Connected user :: log ++ log' ++ [Completed], st2)
        end
    end.

(** ** Observing a run *)

(** The identifier of a download attempt, and of a successful one. *)
Definition attempt (e : event) : option Z :=
  match e with Download i _ _ => Some i | _ => None end.

Definition success (e : event) : option Z :=
  match e with Download i _ true => Some i | _ => None end.

(** An entry into [download_canvas_file_object]: each call logs exactly one
    of its two opening messages. *)
Definition fetcher_call (e : event) : option Z :=
  match e with
  | Log (AlreadyProcessed f) | Log (Downloading f _) => Some (id f)
  | _ => None
  end.

Definition download_attempts (tr : list event) : list Z := omap attempt tr.
Definition downloads (tr : list event) : list Z := omap success tr.
Definition fetcher_calls (tr : list event) : list Z := omap fetcher_call tr.

(** The effects recorded between two states of one run. *)
Definition since (st st' : state) : list event :=
  drop (length (trace st)) (trace st').

(** [st'] is reachable from [st]: the trace only grows, a download is
    attempted only for an identifier missing from the registry, the
    registry gains exactly the identifiers downloaded with success, each at
    most once, and the file system only grows. *)
Record evolves (st st' : state) : Prop := {
  ev_trace : trace st' = trace st ++ since st st';
  ev_registry :
    DOWNLOADED_FILE_IDS_GLOBAL st' =
    DOWNLOADED_FILE_IDS_GLOBAL st ∪ list_to_set (downloads (since st st'));
  ev_fresh :
    forall i, i ∈ download_attempts (since st st') ->
              i ∉ DOWNLOADED_FILE_IDS_GLOBAL st;
  ev_once : NoDup (downloads (since st st'));
  ev_dirs : dirs st ⊆ dirs st';
  ev_files : files st ⊆ files st'
}.

(** The path an effect writes a file to. *)
Definition write (e : event) : option path :=
  match e with
  | Download _ p true => Some p
  | WriteText p _ => Some p
  | _ => None
  end.

Definition written (tr : list event) : list path := omap write tr.

(** The documents written, with their content. *)
Definition document (e : event) : option (path * string) :=
  match e with WriteText p c => Some (p, c) | _ => None end.

Definition documents (tr : list event) : list (path * string) := omap document tr.

(** ** The elementary effects

    Every operation of the program is a sequence of four elementary
    steps: recording an effect that writes no file, making a directory,
    writing a document, and a successful download of a file that is not
    registered.  [Q] tells which effects the sequence may record. *)

Inductive prim (Q : event -> Prop) : state -> state -> Prop :=
| prim_emit (e : event) (st : state) :
    Q e -> write e = None ->
    (forall i, attempt e = Some i -> i ∉ DOWNLOADED_FILE_IDS_GLOBAL st) ->
    prim Q st (emit e st)
| prim_mkdir (p : path) (st : state) :
    Q (Mkdir p) -> prim Q st (mkdir p st)
| prim_write_text (p : path) (c : string) (st : state) :
    Q (WriteText p c) -> prim Q st (write_text p c st)
| prim_downloaded (f : CanvasFile) (p : path) (st : state) :
    Q (Download (id f) p true) ->
    id f ∉ DOWNLOADED_FILE_IDS_GLOBAL st ->
    prim Q st (downloaded f p st).

Definition runs (Q : event -> Prop) : state -> state -> Prop := rtc (prim Q).

(** The component that records an effect, the lowest one when several do:
    0 the fetcher, 1 the link rewriter, 2 the item renderer, 3 the module
    writer, 4 the course driver. *)
Definition rank (e : event) : nat :=
  match e with
  | Download _ _ _ => 0
  | Log m =>
      match m with
      | AlreadyProcessed _ | Downloading _ _ | DownloadFailed _ => 0
      | NameLookupFailed _ | EmbeddedNotFound _ | InvalidFileId _
      | EmbeddedError _ => 1
      | ProcessingItem _ _ | UnsupportedItem _ _ | ItemNotFound _
      | ItemForbidden _ | ItemError _ => 2
      | ProcessingModule _ | ModuleItemsFailed _ | ModuleFinished _ _ => 3
      | CourseStarted _ _ | CourseUnauthorized _ | CourseForbidden _
      | CourseError _ | CourseFinished _ => 4
      end
  | Mkdir _ | GetFile _ => 1
  | GetPage _ | GetAssignment _ => 2
  | WriteText _ _ => 3
  end%nat.

Definition upto (k : nat) (e : event) : Prop := (rank e <= k)%nat.

(** The effects of the body of an item: those of the link rewriter and of
    the fetcher, the fetch of the item's content and the warning for an
    unsupported type. *)
Definition item_effect (e : event) : Prop :=
  upto 1 e \/
  (exists slug, e = GetPage slug) \/
  (exists i, e = GetAssignment i) \/
  (exists t n, e = Log (UnsupportedItem t n)).

(** ** Notions used in the statements *)

(** [spans r cs s cs' s']: the pattern [r] can consume a prefix of [s]
    leaving [s'], turning the groups [cs] into [cs']. *)
Fixpoint spans (r : Re.re) (cs : Re.caps) (s : list ascii)
    (cs' : Re.caps) (s' : list ascii) : Prop :=
  match r with
  | Re.Eps => cs' = cs /\ s' = s
  | Re.Chr p => exists c, s = c :: s' /\ p c = true /\ cs' = cs
  | Re.Cat r1 r2 =>
      exists cs1 s1, spans r1 cs s cs1 s1 /\ spans r2 cs1 s1 cs' s'
  | Re.Alt r1 r2 => spans r1 cs s cs' s' \/ spans r2 cs s cs' s'
  | Re.Star _ p => cs' = cs /\ exists l, s = l ++ s' /\ forallb p l = true
  | Re.Group n r1 =>
      exists cs1,
        spans r1 cs s cs1 s' /\
        cs' = (n, firstn (length s - length s') s) :: cs1
  end.

Fixpoint groupless (r : Re.re) : bool :=
  match r with
  | Re.Eps | Re.Chr _ | Re.Star _ _ => true
  | Re.Cat r1 r2 | Re.Alt r1 r2 => groupless r1 && groupless r2
  | Re.Group _ _ => false
  end.

(** The identifier reads as a number that is missing from the registry and
    that the course resolves to a file. *)
Definition fetchable (C : Remote) (st : state) (file_id : string) : Prop :=
  exists i n,
    Text.int file_id = Some i /\
    (i ∉ DOWNLOADED_FILE_IDS_GLOBAL st) /\
    file_display_name C i = Ok n.


(** A network on which no download fails. *)
Definition reliable (C : Remote) : Prop :=
  forall i t, download_result C i t = true.

(** The course a message of the course driver opens or closes. *)
Definition started (e : event) : option (option string) :=
  match e with Log (CourseStarted n _) => Some n | _ => None end.

Definition finished (e : event) : option (option string) :=
  match e with Log (CourseFinished n) => Some n | _ => None end.

(** Where [process_module] writes the document of a module. *)
Definition readme_of (L : Lib) (course_path : path) (module : Module_) : path :=
  Path.join
    (Path.join course_path
       (sanitize_filename L
          (Text.or_else (module_name module)
             ("Untitled_Module_" +:+ Text.str (module_id module)))))
    "README.md".

(** Where [process_course] puts a course. *)
Definition course_path_of (L : Lib) (output_base_dir : path) (course : Course)
    : path :=
  Path.join output_base_dir
    (sanitize_filename L
       (Text.or_else (course_name course)
          ("Untitled_Course_" +:+ Text.str (course_id course)))).

(** The course the final loop of [main] processes for a selected course,
    if any: the course itself, or the one fetched again when it has no
    name. *)
Definition processed_course (S : Session) (course : Course) : option Course :=
  match course_name course with
  | Some _ => Some course
  | None =>
      match get_course S (course_id course) with
      | Ok full_course => Some full_course
      | Raise _ => None
      end
  end.





(** The message of [process_module_item] for an item that failed. *)
Definition item_failure (e : event) : option message :=
  match e with
  | Log (ItemNotFound t) => Some (ItemNotFound t)
  | Log (ItemForbidden t) => Some (ItemForbidden t)
  | Log (ItemError t) => Some (ItemError t)
  | _ => None
  end.

(** A call to the remote service. *)
Definition remote_call (e : event) : bool :=
  match e with
  | GetFile _ | GetPage _ | GetAssignment _ | Download _ _ _ => true
  | _ => false
  end.

(** No file of the fragment can be had: the lookup of its name fails, or it
    is not registered and its download fails whenever it is tried. *)
Definition unavailable (C : Remote) (st : state) (i : Z) : Prop :=
  (exists e, file_display_name C i = Raise e) \/
  ((i ∉ DOWNLOADED_FILE_IDS_GLOBAL st) /\
   forall t, download_result C i t = false).

(** Every file lies in a directory that exists. *)
Definition housed (st : state) : Prop :=
  forall p, p ∈ files st -> Path.parent p ∈ dirs st.

(** The directory and its parent exist. *)
Definition made (dir : path) (st : state) : Prop :=
  dir ∈ dirs st /\ Path.parent dir ∈ dirs st.




(** ** Concrete collaborators for the examples *)

Module Examples.

(** Writes a double quote for every backquote, so that HTML attributes can
    be spelled in a string literal. *)
Definition html (s : string) : string :=
  Text.text
    (map (fun c => if Ascii.eqb c "`"%char then dquote else c) (Text.chars s)).

(** Insertion order without repetitions. *)
Fixpoint first_occurrences (seen l : list string) : list string :=
  match l with
  | [] => []
  | x :: l' =>
      if existsb (String.eqb x) seen then first_occurrences seen l'
      else x :: first_occurrences (x :: seen) l'
  end.

Lemma first_occurrences_elem (seen l : list string) (x : string) :
  x ∈ first_occurrences seen l <-> x ∈ l /\ x ∉ seen.
Proof.
  revert seen. induction l as [|y l IH]; intros seen; simpl.
  - split; [intros H; inversion H | intros [H _]; inversion H].
  - destruct (existsb (String.eqb y) seen) eqn:E.
    + apply existsb_exists in E as (z & Hz & Hyz).
      apply String.eqb_eq in Hyz. subst z. apply list_elem_of_In in Hz.
      rewrite IH. split.
      * intros [H1 H2]. split; [by right | done].
      * intros [H1 H2]. split; [| done].
        apply elem_of_cons in H1 as [-> | H1]; [done | done].
    + assert (Hy : y ∉ seen).
      { intros Hin. apply list_elem_of_In in Hin.
        assert (existsb (String.eqb y) seen = true) as E'.
        { apply existsb_exists. exists y. split; [done | apply String.eqb_refl]. }
        congruence. }
      rewrite elem_of_cons, IH. split.
      * intros [-> | [H1 H2]]; [split; [by left | done] |].
        split; [by right |]. intros H3. apply H2. by right.
      * intros [H1 H2]. apply elem_of_cons in H1 as [-> | H1]; [by left |].
        destruct (decide (x = y)) as [-> | Hne]; [by left |].
        right. split; [done |]. intros H3.
        apply elem_of_cons in H3 as [-> | H3]; done.
Qed.

Lemma first_occurrences_NoDup (seen l : list string) :
  NoDup (first_occurrences seen l).
Proof.
  revert seen. induction l as [|y l IH]; intros seen; simpl.
  - constructor.
  - destruct (existsb (String.eqb y) seen); [apply IH |].
    constructor; [| apply IH].
    rewrite first_occurrences_elem. intros [_ H]. apply H. by left.
Qed.

(** A sanitizer that drops the characters no file name may hold. *)
Definition drop_separators (s : string) : string :=
  Text.text
    (filter (fun c => c ≠ "/"%char /\ c ≠ "\"%char) (Text.chars s)).

(** Libraries for the examples: [html2text] is taken to leave plain text
    as it is, and a set is visited in insertion order. *)
Definition lib : Lib :=
  {| sanitize_filename := drop_separators;
     html2text_handle := fun s => s;
     html2text_html2text := fun s => s;
     set_iter := first_occurrences [];
     set_iter_NoDup := first_occurrences_NoDup [];
     set_iter_elem := fun l x =>
       conj (fun H => proj1 (proj1 (first_occurrences_elem [] l x) H))
            (fun H => proj2 (first_occurrences_elem [] l x)
                        (conj H (not_elem_of_nil x))) |}.

(** A course that knows file 42, [diagram.png], and file 43, [notes.pdf],
    and whose downloads succeed unless [failing] says otherwise. *)
Definition course_files (failing : Z -> bool) : Remote :=
  {| file_display_name := fun i =>
       if (i =? 42)%Z then Ok "diagram.png"
       else if (i =? 43)%Z then Ok "notes.pdf"
       else Raise ResourceDoesNotExist;
     download_result := fun i _ => negb (failing i);
     get_page := fun _ => Raise ResourceDoesNotExist;
     get_assignment := fun _ => Raise Forbidden |}.

Definition online : Remote := course_files (fun _ => false).

(** The same course when every download of file 42 fails. *)
Definition flaky : Remote := course_files (fun i => (i =? 42)%Z).

Definition diagram : CanvasFile := {| id := 42; display_name := "diagram.png" |}.

Definition module_a : path := ["out"; "Course"; "A"].
Definition module_b : path := ["out"; "Course"; "B"].

(** The link rewriter as [process_module_item] calls it for a module. *)
Definition rewrite (C : Remote) (fragment : string) (module_path : path)
    (st : state) : (option string * list string) * state :=
  extract_and_download_embedded_files lib C (Some (html fragment))
    (Path.join module_path "_files") (Path.join module_path "README.md") st.

Definition image_42 : string := "<img src=`/files/42/preview`>".

(** The state after module A's document embedded the image of file 42. *)
Definition after_image_42 : state :=
  snd (rewrite online image_42 module_a initial_state).

(** A module with a file and a link to a discussion, two courses, the
    session that serves them and the arguments of a run. *)
Definition handout : ModuleItem :=
  {| item_id := 1; title := Some "Handout"; type := "File";
     page_url := EmptyString; content_id := 42;
     external_url := EmptyString; html_url := None |}.

Definition forum : ModuleItem :=
  {| item_id := 2; title := Some "Forum"; type := "Discussion";
     page_url := EmptyString; content_id := 0;
     external_url := EmptyString; html_url := Some "https://canvas.test/d/2" |}.

Definition week1 : Module_ :=
  {| module_id := 3; module_name := Some "Week 1";
     get_module_items := Ok [handout; forum] |}.

Definition logic : Course :=
  {| course_id := 7; course_name := Some "Logic";
     get_modules := Ok [week1]; remote := online |}.

Definition sets : Course :=
  {| course_id := 11; course_name := Some "Sets";
     get_modules := Raise Forbidden; remote := online |}.

Definition session : Session :=
  {| get_current_user := Ok "Ada";
     get_course := fun i =>
       if (i =? 7)%Z then Ok logic
       else if (i =? 11)%Z then Ok sets
       else Raise ResourceDoesNotExist;
     get_courses := Ok [logic; sets] |}.

Definition args : Args :=
  {| api_url := Some "https://canvas.test"; api_key := Some "key";
     course_ids := Some "7, x, 9,11"; output_dir := ["out"] |}.


End Examples.

(** * Properties *)

(** Deciding membership in a concrete set by evaluation. *)
Ltac by_evaluation :=
  match goal with
  | |- _ ∉ _ =>
      let H := fresh in
      intros H; apply (bool_decide_pack _) in H; vm_compute in H; exact H
  | |- _ ∈ _ => apply (bool_decide_unpack _); vm_compute; exact I
  | |- _ <> _ => let H := fresh in intros H; vm_compute in H; discriminate H
  | |- _ => vm_compute; reflexivity
  end.

Lemma since_app (st st' : state) (new : list event) :
  trace st' = trace st ++ new -> since st st' = new.
Proof. intros H. unfold since. rewrite H. apply drop_app_length. Qed.

Lemma since_refl (st : state) : since st st = [].
Proof. apply since_app. by rewrite app_nil_r. Qed.

(** Reads off the effects recorded by a state built from nested [emit]s. *)
Ltac read_since :=
  erewrite since_app by (simpl; rewrite <- ?app_assoc; reflexivity); simpl.

Lemma downloads_attempts (tr : list event) (i : Z) :
  i ∈ downloads tr -> i ∈ download_attempts tr.
Proof.
  unfold downloads, download_attempts. rewrite !list_elem_of_omap.
  intros (e & He & Hs). exists e. split; [done |].
  destruct e as [| | | | |j p [|]|]; simpl in *; congruence.
Qed.

Lemma evolves_refl (st : state) : evolves st st.
Proof.
  split; rewrite ?since_refl; simpl.
  - by rewrite app_nil_r.
  - set_solver.
  - intros i H. inversion H.
  - constructor.
  - done.
  - done.
Qed.

Lemma evolves_trans (st1 st2 st3 : state) :
  evolves st1 st2 -> evolves st2 st3 -> evolves st1 st3.
Proof.
  intros [T1 R1 F1 O1 D1 X1] [T2 R2 F2 O2 D2 X2].
  assert (S13 : since st1 st3 = since st1 st2 ++ since st2 st3).
  { apply since_app. rewrite T2, T1. by rewrite app_assoc. }
  split; rewrite ?S13.
  - rewrite T2, T1. by rewrite app_assoc.
  - unfold downloads in *. rewrite omap_app, list_to_set_app_L, R2, R1.
    set_solver.
  - intros i. unfold download_attempts. rewrite omap_app, elem_of_app.
    intros [H | H]; [by apply F1 |].
    apply F2 in H. rewrite R1 in H. set_solver.
  - unfold downloads. rewrite omap_app. apply NoDup_app. split; [done |].
    split; [| done].
    intros i H1 H2. apply downloads_attempts in H2. apply F2 in H2.
    apply H2. rewrite R1. apply elem_of_union_r, elem_of_list_to_set. done.
  - set_solver.
  - set_solver.
Qed.

(** A step that records [new] without any download and leaves the registry
    alone. *)
Lemma evolves_quiet (st st' : state) (new : list event) :
  trace st' = trace st ++ new ->
  download_attempts new = [] ->
  DOWNLOADED_FILE_IDS_GLOBAL st' = DOWNLOADED_FILE_IDS_GLOBAL st ->
  dirs st ⊆ dirs st' -> files st ⊆ files st' ->
  evolves st st'.
Proof.
  intros HT HA HR HD HF.
  assert (HS : downloads new = []).
  { destruct (downloads new) as [|i l] eqn:E; [done |].
    assert (i ∈ download_attempts new) as Hi.
    { apply downloads_attempts. rewrite E. by left. }
    rewrite HA in Hi. inversion Hi. }
  split; rewrite ?(since_app _ _ _ HT); try done.
  - rewrite HS, HR. set_solver.
  - rewrite HA. intros i Hi. inversion Hi.
  - rewrite HS. constructor.
Qed.

Lemma evolves_emit (e : event) (st : state) :
  attempt e = None -> evolves st (emit e st).
Proof.
  intros H. apply (evolves_quiet _ _ [e]); try done.
  unfold download_attempts. simpl. by rewrite H.
Qed.

Lemma evolves_logger (m : message) (st : state) : evolves st (logger m st).
Proof. by apply evolves_emit. Qed.

Lemma evolves_mkdir (p : path) (st : state) : evolves st (mkdir p st).
Proof. apply (evolves_quiet _ _ [Mkdir p]); try done. simpl. set_solver. Qed.

Lemma evolves_write_text (p : path) (c : string) (st : state) :
  evolves st (write_text p c st).
Proof. apply (evolves_quiet _ _ [WriteText p c]); try done. simpl. set_solver. Qed.

Lemma evolves_downloaded (f : CanvasFile) (p : path) (st : state) :
  id f ∉ DOWNLOADED_FILE_IDS_GLOBAL st -> evolves st (downloaded f p st).
Proof.
  intros H.
  assert (HT : trace (downloaded f p st) = trace st ++ [Download (id f) p true])
    by done.
  split; rewrite ?(since_app _ _ _ HT); simpl.
  - done.
  - set_solver.
  - intros i Hi. apply list_elem_of_singleton in Hi. by subst.
  - apply NoDup_singleton.
  - done.
  - set_solver.
Qed.

Lemma evolves_failed (i : Z) (p : path) (st : state) :
  i ∉ DOWNLOADED_FILE_IDS_GLOBAL st -> evolves st (emit (Download i p false) st).
Proof.
  intros H.
  assert (HT : trace (emit (Download i p false) st) =
               trace st ++ [Download i p false]) by done.
  split; rewrite ?(since_app _ _ _ HT); simpl.
  - done.
  - set_solver.
  - intros j Hj. apply list_elem_of_singleton in Hj. by subst.
  - constructor.
  - done.
  - done.
Qed.

(** A loop whose body makes the state evolve makes it evolve. *)
Lemma evolves_fold {A B : Type} (f : A * state -> B -> A * state)
    (l : list B) (acc : A * state) :
  (forall acc' x, evolves (snd acc') (snd (f acc' x))) ->
  evolves (snd acc) (snd (fold_left f l acc)).
Proof.
  intros Hf. revert acc. induction l as [|x l IH]; intros acc; simpl.
  - apply evolves_refl.
  - eapply evolves_trans; [apply Hf | apply IH].
Qed.

Lemma evolves_fold_state {B : Type} (f : state -> B -> state)
    (l : list B) (st : state) :
  (forall st' x, evolves st' (f st' x)) -> evolves st (fold_left f l st).
Proof.
  intros Hf. revert st. induction l as [|x l IH]; intros st; simpl.
  - apply evolves_refl.
  - eapply evolves_trans; [apply Hf | apply IH].
Qed.

Section Reachability.
Context (L : Lib) (C : Remote).

Lemma get_file_id (i : Z) (f : CanvasFile) : get_file C i = Ok f -> id f = i.
Proof.
  unfold get_file. destruct (file_display_name C i); [| done].
  intros [= <-]. done.
Qed.

Lemma evolves_download_canvas_file_object (f : CanvasFile) (dir : path)
    (st : state) :
  evolves st (snd (download_canvas_file_object L C f dir st)).
Proof.
  unfold download_canvas_file_object.
  destruct (decide (id f ∈ DOWNLOADED_FILE_IDS_GLOBAL st)) as [Hin | Hout]; simpl.
  - apply evolves_logger.
  - destruct (download_result C (id f) _); simpl.
    + eapply evolves_trans; [apply evolves_logger |].
      by apply evolves_downloaded.
    + eapply evolves_trans; [apply evolves_logger |].
      eapply evolves_trans; [| apply evolves_logger].
      by apply evolves_failed.
Qed.

Lemma evolves_process_file_id (html : string) (dir readme : path)
    (file_id : string) (ws : rewriting * state) :
  evolves (snd ws) (snd (process_file_id L C html dir readme file_id ws)).
Proof.
  destruct ws as [w st]. unfold process_file_id. simpl.
  destruct (Text.int file_id) as [i|]; [| apply evolves_logger].
  destruct (decide (i ∈ DOWNLOADED_FILE_IDS_GLOBAL st)).
  - destruct (get_file C i) as [f | []]; simpl;
      try (eapply evolves_trans; [| apply evolves_logger]; by apply evolves_emit).
    by apply evolves_emit.
  - destruct (get_file C i) as [f | []]; simpl;
      try (eapply evolves_trans; [| apply evolves_logger]; by apply evolves_emit).
    pose proof (evolves_download_canvas_file_object f dir (emit (GetFile i) st)) as H.
    destruct (download_canvas_file_object L C f dir (emit (GetFile i) st))
      as [[p|] st2]; simpl in *;
      (eapply evolves_trans; [| exact H]; by apply evolves_emit).
Qed.

Lemma evolves_extract (html : option string) (dir readme : path) (st : state) :
  evolves st
    (snd (extract_and_download_embedded_files L C html dir readme st)).
Proof.
  unfold extract_and_download_embedded_files.
  destruct html as [h|]; [| apply evolves_refl].
  destruct (negb (Text.truthy h)); [apply evolves_refl |].
  match goal with
  | |- context [fold_left ?f ?l ?a] =>
      pose proof (evolves_fold f l a) as H; destruct (fold_left f l a) as [w st2]
  end.
  simpl in *. eapply evolves_trans; [apply evolves_mkdir |].
  apply H. intros acc x. apply evolves_process_file_id.
Qed.

Lemma evolves_render_html (h : string) (dir readme : path) (st : state) :
  evolves st (snd (render_html L C h dir readme st)).
Proof.
  unfold render_html.
  pose proof (evolves_extract (Some h) dir readme st) as H.
  destruct (extract_and_download_embedded_files L C (Some h) dir readme st)
    as [[ph links] st1]. done.
Qed.

Lemma evolves_item_body (item : ModuleItem) (dir readme : path) (st : state) :
  evolves st (snd (item_body L C item dir readme st)).
Proof.
  unfold item_body.
  repeat (destruct (String.eqb (type item) _)).
  - destruct (get_page C (page_url item)) as [pg|e]; simpl;
      [| by apply evolves_emit].
    destruct (Text.truthy_opt (body pg)); simpl; [| by apply evolves_emit].
    pose proof (evolves_render_html (default EmptyString (body pg)) dir readme
                  (emit (GetPage (page_url item)) st)) as H.
    destruct (render_html L C _ dir readme _) as [md st2]. simpl in *.
    eapply evolves_trans; [| exact H]; by apply evolves_emit.
  - destruct (get_file C (content_id item)) as [f|e]; simpl;
      [| by apply evolves_emit].
    pose proof (evolves_download_canvas_file_object f dir
                  (emit (GetFile (content_id item)) st)) as H.
    destruct (download_canvas_file_object L C f dir _) as [[p|] st2];
      simpl in *; (eapply evolves_trans; [| exact H]; by apply evolves_emit).
  - apply evolves_refl.
  - apply evolves_refl.
  - destruct (get_assignment C (content_id item)) as [a|e]; simpl;
      [| by apply evolves_emit].
    destruct (Text.truthy_opt (description a)); simpl.
    + pose proof (evolves_render_html (default EmptyString (description a)) dir
                    readme (emit (GetAssignment (content_id item)) st)) as H.
      destruct (render_html L C _ dir readme _) as [md st2]. simpl in *.
      eapply evolves_trans; [| exact H]; by apply evolves_emit.
    + by apply evolves_emit.
  - destruct (html_url item); apply evolves_refl.
  - destruct (html_url item); apply evolves_refl.
  - apply evolves_logger.
Qed.

Lemma evolves_process_module_item (item : ModuleItem) (module_path : path)
    (st : state) :
  evolves st (snd (process_module_item L C item module_path st)).
Proof.
  unfold process_module_item.
  match goal with
  | |- context [item_body L C item ?d ?r ?s] =>
      pose proof (evolves_item_body item d r s) as H;
      destruct (item_body L C item d r s) as [[md raised] st2]
  end.
  simpl in H.
  assert (H0 : evolves st st2).
  { eapply evolves_trans; [apply evolves_logger |].
    eapply evolves_trans; [apply evolves_mkdir | exact H]. }
  destruct raised as [e|]; simpl; [| done].
  eapply evolves_trans; [exact H0 | apply evolves_logger].
Qed.

Lemma evolves_process_module (module : Module_) (course_path : path)
    (st : state) :
  evolves st (process_module L C module course_path st).
Proof.
  unfold process_module.
  eapply evolves_trans; [apply evolves_logger |].
  eapply evolves_trans; [apply evolves_mkdir |].
  destruct (get_module_items module) as [items | e].
  - match goal with
    | |- context [fold_left ?f ?l ?a] =>
        pose proof (evolves_fold f l a) as H; destruct (fold_left f l a) as [c st2]
    end.
    simpl in H.
    eapply evolves_trans; [apply H |].
    + intros [c' st'] x. simpl.
      pose proof (evolves_process_module_item x
        (Path.join course_path
           (sanitize_filename L
              (Text.or_else (module_name module)
                 ("Untitled_Module_" +:+ Text.str (module_id module))))) st') as H'.
      destruct (process_module_item L C x _ st'). done.
    + eapply evolves_trans; [apply evolves_write_text | apply evolves_logger].
  - eapply evolves_trans; [apply evolves_logger | apply evolves_write_text].
Qed.

End Reachability.

Lemma evolves_process_course (L : Lib) (course : Course) (out : path)
    (st : state) :
  evolves st (process_course L course out st).
Proof.
  unfold process_course.
  eapply evolves_trans; [| apply evolves_logger].
  eapply evolves_trans; [apply evolves_logger |].
  eapply evolves_trans; [apply evolves_mkdir |].
  destruct (get_modules course) as [ms | []]; try apply evolves_logger.
  apply evolves_fold_state. intros st' m. apply evolves_process_module.
Qed.

Lemma evolves_process_courses (L : Lib) (courses : list Course) (out : path)
    (st : state) :
  evolves st (process_courses L courses out st).
Proof.
  unfold process_courses. apply evolves_fold_state.
  intros st' c. apply evolves_process_course.
Qed.

(** ** The asset registry and the asset fetcher *)

Lemma since_initial (st : state) : since initial_state st = trace st.
Proof. unfold since. simpl. by rewrite drop_0. Qed.

Lemma fetcher_registered (L : Lib) (C : Remote) (f : CanvasFile) (dir : path)
    (st : state) :
  id f ∈ DOWNLOADED_FILE_IDS_GLOBAL st ->
  download_canvas_file_object L C f dir st =
  (Some (Path.join dir (sanitize_filename L (display_name f))),
   logger (AlreadyProcessed f) st).
Proof.
  intros H. unfold download_canvas_file_object.
  by destruct (decide (id f ∈ DOWNLOADED_FILE_IDS_GLOBAL st)).
Qed.

(** C3.  Once an identifier is in the registry no later call downloads
    it: the fetcher answers with a path and records one debug message
    only; the link rewriter attempts no download for it, whatever the
    fragment; a second rewriting of a fragment attempts no download for
    anything the first one fetched; and over a whole run, from the empty
    registry through every course, module and item, no identifier is
    downloaded with success twice. *)
Theorem registered_file_is_not_downloaded_again (L : Lib) :
  (forall (C : Remote) (f : CanvasFile) (dir : path) (st : state),
      id f ∈ DOWNLOADED_FILE_IDS_GLOBAL st ->
      let r := download_canvas_file_object L C f dir st in
      fst r = Some (Path.join dir (sanitize_filename L (display_name f))) /\
      since st (snd r) = [Log (AlreadyProcessed f)] /\
      DOWNLOADED_FILE_IDS_GLOBAL (snd r) = DOWNLOADED_FILE_IDS_GLOBAL st /\
      files (snd r) = files st) /\
  (forall (C : Remote) (html : option string) (dir readme : path) (st : state)
          (i : Z),
      i ∈ DOWNLOADED_FILE_IDS_GLOBAL st ->
      i ∉ download_attempts
            (since st
               (snd (extract_and_download_embedded_files L C html dir readme st)))) /\
  (forall (C C' : Remote) (html : option string) (dir readme dir' readme' : path)
          (st : state) (i : Z),
      let st1 :=
        snd (extract_and_download_embedded_files L C html dir readme st) in
      let st2 :=
        snd (extract_and_download_embedded_files L C' html dir' readme' st1) in
      i ∈ downloads (since st st1) ->
      i ∉ download_attempts (since st1 st2)) /\
  (forall (courses : list Course) (out : path),
      NoDup (downloads (trace (process_courses L courses out initial_state)))).
Proof.
  repeat split.
  - by rewrite fetcher_registered.
  - rewrite fetcher_registered by done. by apply since_app.
  - by rewrite fetcher_registered.
  - by rewrite fetcher_registered.
  - intros C html dir readme st i Hi Hatt.
    by apply (ev_fresh _ _ (evolves_extract L C html dir readme st)) in Hatt.
  - intros C C' html dir readme dir' readme' st i st1 st2 Hi Hatt.
    apply (ev_fresh _ _ (evolves_extract L C' html dir' readme' st1)) in Hatt.
    apply Hatt. unfold st1.
    rewrite (ev_registry _ _ (evolves_extract L C html dir readme st)).
    apply elem_of_union_r, elem_of_list_to_set. exact Hi.
  - intros courses out. rewrite <- since_initial.
    apply (ev_once _ _ (evolves_process_courses L courses out initial_state)).
Qed.

Lemma registered_file_is_not_downloaded_again_witness :
  42 ∉ download_attempts
         (since Examples.after_image_42
            (snd (Examples.rewrite Examples.online Examples.image_42
                    Examples.module_b Examples.after_image_42))).
Proof.
  apply (proj1 (proj2 (registered_file_is_not_downloaded_again Examples.lib))).
  vm_compute. reflexivity.
Defined.

(** C9.  When the download fails the fetcher returns [None], the registry
    and the set of written files are as before, and the next call for the
    same file attempts the download again. *)
Theorem failed_download_is_not_recorded (L : Lib) (C : Remote)
    (f : CanvasFile) (dir dir' : path) (st : state) :
  id f ∉ DOWNLOADED_FILE_IDS_GLOBAL st ->
  download_result C (id f) (length (trace st)) = false ->
  let r := download_canvas_file_object L C f dir st in
  fst r = None /\
  DOWNLOADED_FILE_IDS_GLOBAL (snd r) = DOWNLOADED_FILE_IDS_GLOBAL st /\
  files (snd r) = files st /\
  (id f ∉ DOWNLOADED_FILE_IDS_GLOBAL (snd r)) /\
  id f ∈ download_attempts
           (since (snd r) (snd (download_canvas_file_object L C f dir' (snd r)))).
Proof.
  intros Hout Hfail r.
  assert (Hr : r = (None,
                    logger (DownloadFailed f)
                      (emit (Download (id f)
                               (Path.join dir (sanitize_filename L (display_name f)))
                               false)
                         (logger (Downloading f
                                    (Path.join dir
                                       (sanitize_filename L (display_name f)))) st)))).
  { unfold r, download_canvas_file_object.
    destruct (decide (id f ∈ DOWNLOADED_FILE_IDS_GLOBAL st)); [done |].
    by rewrite Hfail. }
  rewrite Hr. simpl. repeat split; try done.
  match goal with |- context [download_canvas_file_object L C f dir' ?s] =>
    set (st1 := s) end.
  unfold download_canvas_file_object.
  destruct (decide (id f ∈ DOWNLOADED_FILE_IDS_GLOBAL st1)) as [Hin | _];
    [done |].
  destruct (download_result C (id f) (length (trace st1))); simpl.
  - erewrite since_app; [| simpl; rewrite <- app_assoc; reflexivity].
    simpl. set_solver.
  - erewrite since_app; [| simpl; rewrite <- !app_assoc; reflexivity].
    simpl. set_solver.
Qed.

Lemma failed_download_is_not_recorded_witness :
  let r :=
    download_canvas_file_object Examples.lib Examples.flaky Examples.diagram
      (Path.join Examples.module_a "_files") initial_state in
  fst r = None /\
  DOWNLOADED_FILE_IDS_GLOBAL (snd r) = DOWNLOADED_FILE_IDS_GLOBAL initial_state /\
  files (snd r) = files initial_state /\
  (id Examples.diagram ∉ DOWNLOADED_FILE_IDS_GLOBAL (snd r)) /\
  id Examples.diagram ∈
    download_attempts
      (since (snd r)
         (snd (download_canvas_file_object Examples.lib Examples.flaky
                 Examples.diagram (Path.join Examples.module_b "_files") (snd r)))).
Proof.
  apply (failed_download_is_not_recorded Examples.lib Examples.flaky
           Examples.diagram (Path.join Examples.module_a "_files")
           (Path.join Examples.module_b "_files") initial_state).
  - apply not_elem_of_empty.
  - reflexivity.
Defined.

(** ** The link rewriter on fragments without references *)

Lemma set_iter_nil (L : Lib) : set_iter L [] = [].
Proof.
  destruct (set_iter L []) as [|x l] eqn:E; [done |].
  assert (x ∈ set_iter L []) as H by (rewrite E; by left).
  apply set_iter_elem in H. inversion H.
Qed.

Lemma ancestors_self (p : path) : p ∈ Path.ancestors p (length p).
Proof.
  destruct p as [|x p]; simpl; [by left |].
  rewrite firstn_all. by left.
Qed.

Lemma mkdir_creates (p : path) (st : state) : p ∈ dirs (mkdir p st).
Proof.
  simpl. apply elem_of_union_l, elem_of_list_to_set, ancestors_self.
Qed.

(** C8.  For an absent and for an empty fragment the link rewriter returns
    the fragment as it was given with an empty side list, and the state is
    the one it was called in: no directory is made, nothing is fetched,
    nothing is recorded. *)
Theorem empty_fragment_is_returned_untouched (L : Lib) (C : Remote)
    (dir readme : path) (st : state) :
  extract_and_download_embedded_files L C None dir readme st =
    ((None, []), st) /\
  extract_and_download_embedded_files L C (Some EmptyString) dir readme st =
    ((Some EmptyString, []), st) /\
  (forall h : string, Text.truthy h = false -> h = EmptyString) /\
  since st st = [].
Proof.
  repeat split.
  - intros h. by destruct h.
  - apply since_refl.
Qed.



(** ** The item renderer *)

Lemma item_body_raised (L : Lib) (C : Remote) (item : ModuleItem)
    (dir readme : path) (st : state) :
  snd (fst (item_body L C item dir readme st)) = content_fetch_error C item.
Proof.
  unfold item_body, content_fetch_error.
  repeat (destruct (String.eqb (type item) _)); try done.
  - destruct (get_page C (page_url item)) as [pg|e]; [| done].
    destruct (Text.truthy_opt (body pg)); [| done].
    by destruct (render_html L C _ dir readme _).
  - destruct (get_file C (content_id item)) as [f|e]; [| done].
    by destruct (download_canvas_file_object L C f dir _) as [[p|] st2].
  - destruct (get_assignment C (content_id item)) as [a|e]; [| done].
    destruct (Text.truthy_opt (description a)); [| done].
    by destruct (render_html L C _ dir readme _).
  - by destruct (html_url item).
  - by destruct (html_url item).
Qed.

(** What the item renderer wrote before the fetch of the item's content
    raised: the heading of a page or of an assignment, nothing for a
    file. *)
Lemma item_body_interrupted (L : Lib) (C : Remote) (item : ModuleItem)
    (dir readme : path) (st : state) (e : api_error) :
  content_fetch_error C item = Some e ->
  fst (item_body L C item dir readme st) =
  (if String.eqb (type item) "Page" then
     "## " +:+ Text.fmt (title item) +:+ Text.nl +:+ Text.nl
   else if String.eqb (type item) "Assignment" then
     "## Assignment: " +:+ Text.fmt (title item) +:+ Text.nl +:+ Text.nl
   else EmptyString,
   Some e).
Proof.
  unfold item_body, content_fetch_error.
  destruct (String.eqb (type item) "Page") eqn:Hpage.
  { destruct (get_page C (page_url item)) as [pg|e']; [done |].
    by intros [= ->]. }
  destruct (String.eqb (type item) "File") eqn:Hfile.
  { apply String.eqb_eq in Hfile. rewrite Hfile. cbn [String.eqb Ascii.eqb].
    destruct (get_file C (content_id item)) as [f|e']; [done |].
    by intros [= ->]. }
  destruct (String.eqb (type item) "ExternalUrl"); [done |].
  destruct (String.eqb (type item) "SubHeader"); [done |].
  destruct (String.eqb (type item) "Assignment"); [| done].
  destruct (get_assignment C (content_id item)) as [a|e']; [done |].
  by intros [= ->].
Qed.

(** C7.  [process_module_item] always returns a fragment, and the fragment
    always ends with the separator: a line break, three hyphens and two
    line breaks.  When the fetch of the item's content raises, the fragment
    is what was written before the failure (the heading of a page or of an
    assignment, nothing for a file), then the notice naming the item and
    the failure, then the separator, and the failure is logged as an error
    in the last recorded effect. *)
Theorem item_failure_becomes_a_notice (L : Lib) (C : Remote)
    (item : ModuleItem) (module_path : path) (st : state) :
  let r := process_module_item L C item module_path st in
  let nl := String "010"%char EmptyString in
  let rule := nl +:+ "---" +:+ nl +:+ nl in
  let name := match title item with Some t => t | None => "None" end in
  (exists md, fst r = md +:+ rule) /\
  (forall e,
      content_fetch_error C item = Some e ->
      let written :=
        if String.eqb (type item) "Page" then "## " +:+ name +:+ nl +:+ nl
        else if String.eqb (type item) "Assignment" then
          "## Assignment: " +:+ name +:+ nl +:+ nl
        else EmptyString in
      let notice :=
        match e with
        | ResourceDoesNotExist =>
            "*Item '" +:+ name +:+
            "' could not be retrieved (Resource not found).*" +:+ nl
        | Forbidden =>
            "*Item '" +:+ name +:+
            "' could not be retrieved (Access forbidden).*" +:+ nl
        | _ =>
            "*An error occurred while processing item '" +:+ name +:+
            "'.*" +:+ nl
        end in
      let logged :=
        match e with
        | ResourceDoesNotExist => ItemNotFound (title item)
        | Forbidden => ItemForbidden (title item)
        | _ => ItemError (title item)
        end in
      fst r = (written +:+ notice) +:+ rule /\
      level_of logged = ERROR /\
      exists before, trace (snd r) = before ++ [Log logged]).
Proof.
  intros r nl rule name. unfold r, process_module_item.
  match goal with
  | |- context [item_body L C item ?d ?rd ?s] =>
      pose proof (item_body_raised L C item d rd s) as H;
      pose proof (item_body_interrupted L C item d rd s) as Hmd;
      destruct (item_body L C item d rd s) as [[md raised] st2]
  end.
  cbn [fst snd] in H, Hmd. subst raised. split.
  - destruct (content_fetch_error C item); cbn [fst];
      eexists; reflexivity.
  - intros e He. cbv zeta. rewrite He in *.
    specialize (Hmd e eq_refl). injection Hmd as ->.
    cbn [fst snd].
    split; [by destruct e |].
    split; [by destruct e |].
    exists (trace st2). by destruct e.
Qed.

Lemma item_failure_becomes_a_notice_witness :
  let item :=
    {| item_id := 7; title := Some "Syllabus"; type := "Page";
       page_url := "syllabus"; content_id := 0; external_url := EmptyString;
       html_url := None |} in
  let r :=
    process_module_item Examples.lib Examples.online item Examples.module_a
      initial_state in
  let nl := String "010"%char EmptyString in
  fst r =
    (("## " +:+ "Syllabus" +:+ nl +:+ nl) +:+
     ("*Item '" +:+ "Syllabus" +:+
      "' could not be retrieved (Resource not found).*" +:+ nl)) +:+
    (nl +:+ "---" +:+ nl +:+ nl) /\
  level_of (ItemNotFound (Some "Syllabus")) = ERROR /\
  exists before,
    trace (snd r) = before ++ [Log (ItemNotFound (Some "Syllabus"))].
Proof.
  intros item r nl.
  apply (proj2 (item_failure_becomes_a_notice Examples.lib Examples.online item
                  Examples.module_a initial_state) ResourceDoesNotExist).
  reflexivity.
Defined.

(** ** References to a file from two modules *)

(** C1, evaluated where the code departs from it.  Module A's document
    embeds the image of file 42: the file is downloaded into A's [_files]
    and the link written into the document leads to it.  Module B's
    document then embeds the same image: nothing is downloaded, the fetcher
    and the rewriter answer with a path inside B's [_files], which differs
    from the path of the download, and the link written into B's document
    leads to a file that does not exist. *)
Theorem reference_from_another_module_dangles :
  let downloaded_to := ["out"; "Course"; "A"; "_files"; "diagram.png"] in
  let first :=
    Examples.rewrite Examples.online Examples.image_42 Examples.module_a
      initial_state in
  let second :=
    Examples.rewrite Examples.online Examples.image_42 Examples.module_b
      (snd first) in
  let again :=
    download_canvas_file_object Examples.lib Examples.online Examples.diagram
      (Path.join Examples.module_b "_files") (snd first) in
  fst first = (Some (Examples.html "<img src=`_files/diagram.png`>"), []) /\
  downloads (trace (snd first)) = [42] /\
  elements (files (snd first)) = [downloaded_to] /\
  Path.resolve Examples.module_a ["_files"; "diagram.png"] = downloaded_to /\
  fst second = (Some (Examples.html "<img src=`_files/diagram.png`>"), []) /\
  download_attempts (since (snd first) (snd second)) = [] /\
  elements (files (snd second)) = [downloaded_to] /\
  (Path.resolve Examples.module_b ["_files"; "diagram.png"] ∉ files (snd second)) /\
  fst again = Some ["out"; "Course"; "B"; "_files"; "diagram.png"] /\
  fst again <> Some downloaded_to /\
  (["out"; "Course"; "B"; "_files"; "diagram.png"] ∉ files (snd again)).
Proof.
  repeat split; by_evaluation.
Qed.

(** ** The image pass and the anchor pass *)

Lemma fold_left_invariant {A B : Type} (P : A -> Prop) (f : A -> B -> A)
    (l : list B) (a : A) :
  P a -> (forall a' x, x ∈ l -> P a' -> P (f a' x)) -> P (fold_left f l a).
Proof.
  revert a. induction l as [|x l IH]; intros a Ha Hf; simpl; [done |].
  apply IH.
  - apply Hf; [by left | done].
  - intros a' y Hy. apply Hf. by right.
Qed.





(** The path of a file of the module's [_files] directory, relative to the
    directory of the module's document. *)
Lemma relpath_from_app (mp rest : path) : Path.relpath_from (mp ++ rest) mp = rest.
Proof.
  induction mp as [|x mp IH]; simpl.
  - by destruct rest.
  - by rewrite String.eqb_refl.
Qed.

Lemma relative_path_in_files (mp : path) (n : string) :
  relative_path_of (Path.join (Path.join mp "_files") n) (Path.join mp "README.md") =
  Path.to_string (Path.join ["_files"] n).
Proof.
  unfold relative_path_of, Path.relpath, Path.parent.
  change (Path.join mp "README.md") with (mp ++ ["README.md"]).
  rewrite removelast_last.
  replace (Path.join (Path.join mp "_files") n) with (mp ++ Path.join ["_files"] n).
  2:{ unfold Path.join. simpl. destruct (Text.truthy n); by rewrite <- ?app_assoc. }
  rewrite relpath_from_app.
  unfold Path.join. by destruct (Text.truthy n).
Qed.

(** *** The turn of one identifier *)

Section Turns.
Context (L : Lib) (C : Remote) (html : string) (dir readme : path).

Let step (ws : rewriting * state) (file_id : string) : rewriting * state :=
  process_file_id L C html dir readme file_id ws.






End Turns.



(** ** The effects of one turn of the loop *)

Lemma since_trans (st1 st2 st3 : state) :
  evolves st1 st2 -> evolves st2 st3 ->
  since st1 st3 = since st1 st2 ++ since st2 st3.
Proof.
  intros H12 H23. apply since_app.
  rewrite (ev_trace _ _ H23), (ev_trace _ _ H12). by rewrite app_assoc.
Qed.

(** The effects of one turn: for an identifier that parses, is missing
    from the registry and resolves, the fetcher is entered once and the
    download attempted once; in every other case neither happens.  An
    identifier that parses is never reported as invalid. *)
Lemma process_file_id_effects (L : Lib) (C : Remote) (html : string)
    (dir readme : path) (file_id : string) (w : rewriting) (st : state) :
  let new := since st (snd (process_file_id L C html dir readme file_id (w, st))) in
  fetcher_calls new = download_attempts new /\
  download_attempts new =
    match Text.int file_id with
    | Some i =>
        if decide (i ∈ DOWNLOADED_FILE_IDS_GLOBAL st) then []
        else match file_display_name C i with Ok _ => [i] | Raise _ => [] end
    | None => []
    end /\
  (is_Some (Text.int file_id) -> forall s, Log (InvalidFileId s) ∉ new).
Proof.
  unfold process_file_id, get_file.
  destruct (Text.int file_id) as [i|].
  - destruct (decide (i ∈ DOWNLOADED_FILE_IDS_GLOBAL st)) as [Hin | Hout].
    + destruct (file_display_name C i) as [n | []]; simpl; read_since;
        (split; [done | split; [done |]]); intros _ s Hs;
        repeat (apply elem_of_cons in Hs as [Hs | Hs]; [discriminate Hs |]);
        inversion Hs.
    + destruct (file_display_name C i) as [n | []]; simpl;
        [| read_since; (split; [done | split; [done |]]); intros _ s Hs;
           repeat (apply elem_of_cons in Hs as [Hs | Hs]; [discriminate Hs |]);
           inversion Hs ..].
      unfold download_canvas_file_object. simpl.
      destruct (decide (i ∈ DOWNLOADED_FILE_IDS_GLOBAL st)); [done |].
      destruct (download_result C i _); simpl; read_since;
        (split; [done | split; [done |]]); intros _ s Hs;
        repeat (apply elem_of_cons in Hs as [Hs | Hs]; [discriminate Hs |]);
        inversion Hs.
  - simpl. read_since. split; [done | split; [done |]].
    intros [? [=]].
Qed.

(** ** What the file identifier pattern collects *)

Lemma star_sound {R : Type} (g : bool) (p : ascii -> bool)
    (k : list ascii -> option R) (s : list ascii) (x : R) :
  Re.star g p k s = Some x ->
  exists l s', s = l ++ s' /\ forallb p l = true /\ k s' = Some x.
Proof.
  induction s as [|c s IH]; simpl.
  - intros H. by exists [], [].
  - destruct (p c) eqn:Hc; [| intros H; by exists [], (c :: s)].
    destruct g.
    + destruct (Re.star true p k s) as [y|] eqn:E.
      * intros [= ->]. destruct (IH eq_refl) as (l & s' & -> & Hl & Hk).
        exists (c :: l), s'. simpl. by rewrite Hc.
      * intros H. by exists [], (c :: s).
    + destruct (k (c :: s)) as [y|] eqn:E.
      * intros [= ->]. by exists [], (c :: s).
      * intros H. destruct (IH H) as (l & s' & -> & Hl & Hk).
        exists (c :: l), s'. simpl. by rewrite Hc.
Qed.

(** The matcher only succeeds along a path the pattern allows. *)
Lemma run_sound {R : Type} (r : Re.re) (k : Re.caps -> list ascii -> option R)
    (cs : Re.caps) (s : list ascii) (x : R) :
  Re.run r k cs s = Some x ->
  exists cs' s', spans r cs s cs' s' /\ k cs' s' = Some x.
Proof.
  revert k cs s. induction r as [|p|r1 IH1 r2 IH2|r1 IH1 r2 IH2|g p|n r1 IH1];
    intros k cs s; simpl.
  - intros H. by exists cs, s.
  - destruct s as [|c s]; [done |]. destruct (p c) eqn:Hc; [| done].
    intros H. exists cs, s. split; [| done]. by exists c.
  - intros H. apply IH1 in H as (cs1 & s1 & H1 & H).
    apply IH2 in H as (cs2 & s2 & H2 & H).
    exists cs2, s2. split; [| done]. by exists cs1, s1.
  - destruct (Re.run r1 k cs s) as [y|] eqn:E.
    + intros [= ->]. apply IH1 in E as (cs' & s' & H1 & H).
      exists cs', s'. split; [by left | done].
    + intros H. apply IH2 in H as (cs' & s' & H2 & H).
      exists cs', s'. split; [by right | done].
  - intros H. apply star_sound in H as (l & s' & -> & Hl & H).
    exists cs, s'. split; [| done]. split; [done |]. by exists l.
  - intros H. apply IH1 in H as (cs1 & s' & H1 & H).
    eexists _, s'. split; [| exact H]. by exists cs1.
Qed.

Lemma spans_groupless (r : Re.re) (cs : Re.caps) (s : list ascii)
    (cs' : Re.caps) (s' : list ascii) :
  groupless r = true -> spans r cs s cs' s' -> cs' = cs.
Proof.
  revert cs s cs' s'.
  induction r as [|p|r1 IH1 r2 IH2|r1 IH1 r2 IH2|g p|n r1 IH1];
    intros cs s cs' s'; simpl; try done.
  - by intros _ [-> _].
  - by intros _ (c & _ & _ & ->).
  - intros [G1 G2]%andb_prop (cs1 & s1 & H1 & H2).
    apply IH1 in H1; [| done]. apply IH2 in H2; [| done]. congruence.
  - intros [G1 G2]%andb_prop [H | H]; eauto.
  - by intros _ [-> _].
Qed.

(** Group 1 of a match of [file_id_pattern] is a non-empty run of digits. *)
Lemma file_id_pattern_group (s : list ascii) (cs : Re.caps) (rest : list ascii) :
  Re.match_here file_id_pattern s = Some (cs, rest) ->
  exists c l, Re.group 1 cs = c :: l /\ forallb Text.is_digit (c :: l) = true.
Proof.
  intros H. apply run_sound in H as (cs' & s' & H & [= <- <-]).
  destruct H as (cs1 & s1 & _ & cs2 & s2 & Hg & Hopt).
  apply spans_groupless in Hopt; [| reflexivity]. subst cs'.
  destruct Hg as (cs3 & Hd & ->).
  destruct Hd as (cs4 & s4 & (c & -> & Hc & _) & _ & l & -> & Hl).
  exists c, l. split; [| simpl; by rewrite Hc].
  cbn [Re.group Nat.eqb].
  change (c :: l ++ s2) with ((c :: l) ++ s2).
  replace (length ((c :: l) ++ s2) - length s2)%nat with (length (c :: l))
    by (rewrite length_app; lia).
  apply take_app_length.
Qed.

Lemma finditer_from_match (r : Re.re) (skip : nat) (s : list ascii)
    (cs : Re.caps) :
  cs ∈ Re.finditer_from r skip s ->
  exists s0 rest, Re.match_here r s0 = Some (cs, rest).
Proof.
  revert skip. induction s as [|c s IH]; intros skip.
  - destruct skip; simpl; intros H; inversion H.
  - destruct skip as [|n]; simpl; [| apply IH].
    destruct (Re.match_here r (c :: s)) as [[cs0 rest]|] eqn:E; [| apply IH].
    intros [-> | H]%elem_of_cons; [eauto | by apply IH in H].
Qed.


















(** ** Malformed references *)

Section Scan.
Context (L : Lib) (C : Remote) (html : string) (dir readme : path).

Let step (ws : rewriting * state) (file_id : string) : rewriting * state :=
  process_file_id L C html dir readme file_id ws.





End Scan.




(** An anchor to a run of 4301 digits: the run is collected, [int] rejects
    it, and the turn logs the invalid identifier and does nothing else. *)
Lemma overlong_identifier_is_reported :
  let digits := Text.text (repeat "1"%char 4301) in
  let fragment :=
    Examples.html "<a href=`/files/" +:+ digits +:+ Examples.html "`>notes</a>" in
  let r :=
    extract_and_download_embedded_files Examples.lib Examples.online
      (Some fragment) (Path.join Examples.module_a "_files")
      (Path.join Examples.module_a "README.md") initial_state in
  found_file_ids Examples.lib fragment = [digits] /\
  Text.int digits = None /\
  fst r = (Some fragment, []) /\
  trace (snd r) =
    [Mkdir (Path.join Examples.module_a "_files"); Log (InvalidFileId digits)].
Proof. repeat split; vm_compute; reflexivity. Qed.

(** ** How often the fetcher is entered *)

Section Counting.
Context (L : Lib) (C : Remote) (html : string) (dir readme : path).

Let step (ws : rewriting * state) (file_id : string) : rewriting * state :=
  process_file_id L C html dir readme file_id ws.

Lemma step_attempts_bound (w : rewriting) (st : state) (x : string) :
  (length (download_attempts (since st (snd (step (w, st) x)))) <= 1)%nat.
Proof.
  unfold step.
  destruct (process_file_id_effects L C html dir readme x w st) as (_ & -> & _).
  destruct (Text.int x) as [i|]; simpl; [| lia].
  destruct (decide _); simpl; [lia |].
  destruct (file_display_name C i); simpl; lia.
Qed.

Lemma loop_calls (l : list string) (w : rewriting) (st : state) :
  let st' := snd (fold_left step l (w, st)) in
  fetcher_calls (since st st') = download_attempts (since st st') /\
  (length (download_attempts (since st st')) <= length l)%nat /\
  (Forall (fetchable C st) l -> NoDup (omap Text.int l) ->
   download_attempts (since st st') = omap Text.int l).
Proof.
  revert w st. induction l as [|x l IH]; intros w st.
  - simpl. rewrite since_refl. by repeat split.
  - cbn [fold_left].
    pose proof (evolves_process_file_id L C html dir readme x (w, st)) as Hx.
    pose proof (process_file_id_effects L C html dir readme x w st)
      as (Hcalls & Hatt & _).
    pose proof (step_attempts_bound w st x) as Hle.
    fold (step (w, st) x) in Hx, Hcalls, Hatt |- *.
    destruct (step (w, st) x) as [w1 st1]. cbn [snd] in *.
    specialize (IH w1 st1). cbv zeta in IH.
    pose proof (evolves_fold step l (w1, st1)
                  (fun acc y => evolves_process_file_id L C html dir readme y acc))
      as Hl.
    cbn [snd] in Hl. destruct IH as (IHcalls & IHle & IHeq). cbv zeta.
    rewrite (since_trans _ _ _ Hx Hl).
    unfold fetcher_calls, download_attempts in *. rewrite !omap_app, !length_app.
    split; [by rewrite Hcalls, IHcalls |]. split; [cbn [length]; lia |].
    intros Hall Hnd. apply Forall_cons in Hall as [(i & n & Hi & Hout & Hn) Hall].
    rewrite Hi in Hatt. change (omap Text.int (x :: l)) with
      (match Text.int x with
       | Some y => y :: omap Text.int l
       | None => omap Text.int l
       end) in Hnd |- *.
    rewrite Hi in Hnd |- *. apply NoDup_cons in Hnd as [Hfresh Hnd].
    destruct (decide (i ∈ DOWNLOADED_FILE_IDS_GLOBAL st)); [done |].
    rewrite Hn in Hatt. rewrite Hatt. simpl. f_equal.
    apply IHeq; [| done].
    apply Forall_forall. intros y Hy.
    rewrite Forall_forall in Hall. destruct (Hall y Hy) as (j & m & Hj & Hjout & Hm).
    exists j, m. split; [done |]. split; [| done].
    rewrite (ev_registry _ _ Hx). intros [Hin | Hin]%elem_of_union; [done |].
    apply elem_of_list_to_set, downloads_attempts in Hin.
    unfold download_attempts in Hin. rewrite Hatt in Hin.
    apply list_elem_of_singleton in Hin. subst j.
    apply Hfresh. apply list_elem_of_omap. by exists y.
Qed.

End Counting.

Lemma omap_length_total {A B : Type} (f : A -> option B) (l : list A) :
  Forall (fun x => is_Some (f x)) l -> length (omap f l) = length l.
Proof.
  induction 1 as [|x l [y Hy] _ IH]; [done |].
  change (omap f (x :: l)) with
    (match f x with Some y => y :: omap f l | None => omap f l end).
  rewrite Hy. simpl. by rewrite IH.
Qed.

(** C5, at two fragments.  An identifier the course does not know is
    collected, is missing from the registry, and the fetcher is never
    entered.  Two spellings of one number are two collected identifiers,
    and the fetcher is entered once: the second spelling finds the number
    in the registry. *)
Lemma fetcher_count_counterexample :
  let unknown :=
    Examples.rewrite Examples.online "<a href=`/files/7`>syllabus</a>"
      Examples.module_a initial_state in
  let spellings :=
    Examples.rewrite Examples.online
      "<a href=`/files/42`>figure</a> <a href=`/files/042`>figure</a>"
      Examples.module_a initial_state in
  found_file_ids Examples.lib (Examples.html "<a href=`/files/7`>syllabus</a>") =
    ["7"] /\
  fetcher_calls (trace (snd unknown)) = [] /\
  download_attempts (trace (snd unknown)) = [] /\
  found_file_ids Examples.lib
    (Examples.html
       "<a href=`/files/42`>figure</a> <a href=`/files/042`>figure</a>") =
    ["42"; "042"] /\
  fetcher_calls (trace (snd spellings)) = [42] /\
  download_attempts (trace (snd spellings)) = [42].
Proof. repeat split; vm_compute; reflexivity. Qed.

(** C5 as amended.  The collected identifiers are pairwise distinct; each
    entry into the fetcher from the link rewriter is one download attempt,
    and there are at most as many as collected identifiers.  When every
    collected identifier is missing from the registry and resolves to a
    file of the course, and no two of them spell the same number, the
    fetcher is entered exactly once per collected identifier, in the order
    of the loop, however many tags hold each identifier. *)
Theorem fetcher_entered_once_per_identifier (L : Lib) (C : Remote)
    (html : string) (dir readme : path) (st : state) :
  let ids := found_file_ids L html in
  let new :=
    since st
      (snd (extract_and_download_embedded_files L C (Some html) dir readme st)) in
  NoDup ids /\
  fetcher_calls new = download_attempts new /\
  (length (fetcher_calls new) <= length ids)%nat /\
  (Forall (fetchable C st) ids ->
   NoDup (omap Text.int ids) ->
   fetcher_calls new = omap Text.int ids /\
   length (fetcher_calls new) = length ids).
Proof.
  intros ids new. split; [apply set_iter_NoDup |].
  unfold new, extract_and_download_embedded_files.
  destruct (Text.truthy html) eqn:Hne; simpl.
  - pose proof (loop_calls L C html dir readme ids
                  {| modified_html := html; downloaded_item_links_md := [] |}
                  (mkdir dir st)) as (Hcalls & Hle & Heq).
    pose proof (evolves_fold
                  (fun ws file_id => process_file_id L C html dir readme file_id ws)
                  ids
                  ({| modified_html := html; downloaded_item_links_md := [] |},
                   mkdir dir st)
                  (fun acc y => evolves_process_file_id L C html dir readme y acc))
      as Hev.
    fold ids.
    destruct (fold_left _ ids _) as [w st2]. cbn [snd] in *.
    rewrite (since_trans _ _ _ (evolves_mkdir dir st) Hev).
    assert (Hmk : since st (mkdir dir st) = [Mkdir dir]) by (by read_since).
    rewrite Hmk. unfold fetcher_calls, download_attempts in *.
    rewrite !omap_app. simpl.
    split; [done |]. split; [by rewrite Hcalls |].
    intros Hall Hnd. rewrite Hcalls, (Heq Hall Hnd). split; [done |].
    apply omap_length_total. eapply Forall_impl; [exact Hall |].
    intros x (i & n & Hi & _). by exists i.
  - rewrite since_refl. simpl. split; [done |]. split; [lia |].
    assert (Hids : ids = []).
    { unfold ids, found_file_ids. destruct html; [| done]. apply set_iter_nil. }
    rewrite Hids. by intros _ _.
Qed.

Lemma fetcher_entered_once_per_identifier_witness :
  let fragment :=
    Examples.html
      ("<img src=`/files/42/preview`> <a href=`/files/43/download?v=1`>notes</a> " +:+
       "<img src=`/courses/1/files/42/preview`> <a href=`/files/43`>notes</a>") in
  let new :=
    since initial_state
      (snd (extract_and_download_embedded_files Examples.lib Examples.online
              (Some fragment) (Path.join Examples.module_a "_files")
              (Path.join Examples.module_a "README.md") initial_state)) in
  fetcher_calls new = omap Text.int (found_file_ids Examples.lib fragment) /\
  length (fetcher_calls new) = length (found_file_ids Examples.lib fragment).
Proof.
  intros fragment new.
  apply (proj2 (proj2 (proj2 (fetcher_entered_once_per_identifier Examples.lib
           Examples.online fragment (Path.join Examples.module_a "_files")
           (Path.join Examples.module_a "README.md") initial_state)))).
  - vm_compute found_file_ids.
    repeat apply Forall_cons_2; [| | apply Forall_nil_2].
    + exists 42, "diagram.png". repeat split. apply not_elem_of_empty.
    + exists 43, "notes.pdf". repeat split. apply not_elem_of_empty.
  - vm_compute. repeat constructor; intros H; inversion H; subst;
      match goal with H' : _ ∈ [] |- _ => inversion H' end.
Defined.

(** ** The side list *)

Section SideList.
Context (L : Lib) (C : Remote) (html : string) (dir readme : path).

Let step (ws : rewriting * state) (file_id : string) : rewriting * state :=
  process_file_id L C html dir readme file_id ws.





End SideList.






(** * Further properties *)

(** ** Every operation is a sequence of elementary effects *)

Lemma runs_mono (Q Q' : event -> Prop) (st st' : state) :
  (forall e, Q e -> Q' e) -> runs Q st st' -> runs Q' st st'.
Proof.
  intros HQ H. induction H as [st | st1 st2 st3 H12 _ IH]; [constructor |].
  eapply rtc_l; [| exact IH].
  destruct H12; constructor; auto.
Qed.

Lemma runs_trans (Q : event -> Prop) (st1 st2 st3 : state) :
  runs Q st1 st2 -> runs Q st2 st3 -> runs Q st1 st3.
Proof. intros H12 H23. by etrans. Qed.

Lemma runs_emit (Q : event -> Prop) (e : event) (st : state) :
  Q e -> attempt e = None -> write e = None -> runs Q st (emit e st).
Proof.
  intros HQ Ha Hw. apply rtc_once. constructor; [done | done |].
  intros i Hi. congruence.
Qed.

Lemma runs_logger (Q : event -> Prop) (m : message) (st : state) :
  Q (Log m) -> runs Q st (logger m st).
Proof. intros HQ. by apply runs_emit. Qed.

Lemma runs_mkdir (Q : event -> Prop) (p : path) (st : state) :
  Q (Mkdir p) -> runs Q st (mkdir p st).
Proof. intros HQ. apply rtc_once. by constructor. Qed.

Lemma runs_write_text (Q : event -> Prop) (p : path) (c : string) (st : state) :
  Q (WriteText p c) -> runs Q st (write_text p c st).
Proof. intros HQ. apply rtc_once. by constructor. Qed.

Lemma runs_fold {A B : Type} (Q : event -> Prop)
    (f : A * state -> B -> A * state) (l : list B) (acc : A * state) :
  (forall acc' x, runs Q (snd acc') (snd (f acc' x))) ->
  runs Q (snd acc) (snd (fold_left f l acc)).
Proof.
  intros Hf. revert acc. induction l as [|x l IH]; intros acc; simpl.
  - constructor.
  - eapply runs_trans; [apply Hf | apply IH].
Qed.

Lemma runs_fold_state {B : Type} (Q : event -> Prop) (f : state -> B -> state)
    (l : list B) (st : state) :
  (forall st' x, runs Q st' (f st' x)) -> runs Q st (fold_left f l st).
Proof.
  intros Hf. revert st. induction l as [|x l IH]; intros st; simpl.
  - constructor.
  - eapply runs_trans; [apply Hf | apply IH].
Qed.

(** Closes a goal [upto k e] on a concrete kind of effect. *)
Ltac ranked := unfold upto; simpl; lia.

(** Splits [runs Q st (g (f st))] along the nesting of the state. *)
Ltac stepwise :=
  repeat first
    [ apply rtc_refl
    | apply runs_logger; ranked
    | apply runs_mkdir; ranked
    | apply runs_write_text; ranked
    | apply runs_emit; [ranked | reflexivity | reflexivity]
    | eapply runs_trans;
      [| first [ apply runs_logger; ranked
               | apply runs_mkdir; ranked
               | apply runs_write_text; ranked
               | apply runs_emit; [ranked | reflexivity | reflexivity] ] ] ].

Section Sequences.
Context (L : Lib) (C : Remote).

Lemma runs_download_canvas_file_object (f : CanvasFile) (dir : path)
    (st : state) :
  runs (upto 0) st (snd (download_canvas_file_object L C f dir st)).
Proof.
  unfold download_canvas_file_object.
  destruct (decide (id f ∈ DOWNLOADED_FILE_IDS_GLOBAL st)) as [Hin | Hout]; simpl.
  - stepwise.
  - destruct (download_result C (id f) _); simpl.
    + eapply runs_trans;
        [| apply rtc_once; apply prim_downloaded; [ranked | done]].
      apply runs_logger; ranked.
    + eapply runs_trans; [| apply runs_logger; ranked].
      eapply runs_trans;
        [| apply rtc_once; apply prim_emit;
           [ranked | done | intros i [= <-]; done]].
      apply runs_logger; ranked.
Qed.

Lemma runs_process_file_id (html : string) (dir readme : path)
    (file_id : string) (ws : rewriting * state) :
  runs (upto 1) (snd ws) (snd (process_file_id L C html dir readme file_id ws)).
Proof.
  destruct ws as [w st]. unfold process_file_id. simpl.
  destruct (Text.int file_id) as [i|]; [| stepwise].
  destruct (decide (i ∈ DOWNLOADED_FILE_IDS_GLOBAL st)).
  - destruct (get_file C i) as [f | []]; simpl; stepwise.
  - destruct (get_file C i) as [f | []]; simpl; try stepwise.
    pose proof (runs_download_canvas_file_object f dir (emit (GetFile i) st)) as H.
    apply (runs_mono _ (upto 1)) in H; [| unfold upto; intros; lia].
    destruct (download_canvas_file_object L C f dir (emit (GetFile i) st))
      as [[p|] st2]; simpl in *;
      (eapply runs_trans; [| exact H]; stepwise).
Qed.

Lemma runs_extract (html : option string) (dir readme : path) (st : state) :
  runs (upto 1) st
    (snd (extract_and_download_embedded_files L C html dir readme st)).
Proof.
  unfold extract_and_download_embedded_files.
  destruct html as [h|]; [| constructor].
  destruct (negb (Text.truthy h)); [constructor |].
  match goal with
  | |- context [fold_left ?f ?l ?a] =>
      pose proof (runs_fold (upto 1) f l a) as H;
      destruct (fold_left f l a) as [w st2]
  end.
  simpl in *. eapply runs_trans; [apply runs_mkdir; ranked |].
  apply H. intros acc x. apply runs_process_file_id.
Qed.

Lemma runs_render_html (h : string) (dir readme : path) (st : state) :
  runs (upto 1) st (snd (render_html L C h dir readme st)).
Proof.
  unfold render_html.
  pose proof (runs_extract (Some h) dir readme st) as H.
  destruct (extract_and_download_embedded_files L C (Some h) dir readme st)
    as [[ph links] st1]. done.
Qed.

Lemma runs_item_body (item : ModuleItem) (dir readme : path) (st : state) :
  runs item_effect st (snd (item_body L C item dir readme st)).
Proof.
  assert (Hlow : forall st st', runs (upto 1) st st' -> runs item_effect st st').
  { intros ? ?. apply runs_mono. intros e He. by left. }
  assert (Hpage : forall st, runs item_effect st (emit (GetPage (page_url item)) st)).
  { intros ?. apply runs_emit; [| done | done]. right. left. eauto. }
  assert (Hfile : forall i st, runs item_effect st (emit (GetFile i) st)).
  { intros ? ?. apply runs_emit; [| done | done]. left. ranked. }
  assert (Hasg : forall st,
             runs item_effect st (emit (GetAssignment (content_id item)) st)).
  { intros ?. apply runs_emit; [| done | done]. right. right. left. eauto. }
  unfold item_body.
  repeat (destruct (String.eqb (type item) _)).
  - destruct (get_page C (page_url item)) as [pg|e]; simpl; [| apply Hpage].
    destruct (Text.truthy_opt (body pg)); simpl; [| apply Hpage].
    pose proof (runs_render_html (default EmptyString (body pg)) dir readme
                  (emit (GetPage (page_url item)) st)) as H.
    destruct (render_html L C _ dir readme _) as [md st2]. simpl in *.
    eapply runs_trans; [apply Hpage | by apply Hlow].
  - destruct (get_file C (content_id item)) as [f|e]; simpl; [| apply Hfile].
    pose proof (runs_download_canvas_file_object f dir
                  (emit (GetFile (content_id item)) st)) as H.
    apply (runs_mono _ (upto 1)) in H; [| unfold upto; intros; lia].
    destruct (download_canvas_file_object L C f dir _) as [[p|] st2];
      simpl in *; (eapply runs_trans; [apply Hfile | by apply Hlow]).
  - constructor.
  - constructor.
  - destruct (get_assignment C (content_id item)) as [a|e]; simpl;
      [| apply Hasg].
    destruct (Text.truthy_opt (description a)); simpl; [| apply Hasg].
    pose proof (runs_render_html (default EmptyString (description a)) dir
                  readme (emit (GetAssignment (content_id item)) st)) as H.
    destruct (render_html L C _ dir readme _) as [md st2]. simpl in *.
    eapply runs_trans; [apply Hasg | by apply Hlow].
  - destruct (html_url item); constructor.
  - destruct (html_url item); constructor.
  - apply runs_logger. right. right. right. eauto.
Qed.

Lemma item_effect_upto (e : event) : item_effect e -> upto 2 e.
Proof.
  intros [H | [(s & ->) | [(i & ->) | (t & n & ->)]]]; try ranked.
  unfold upto in *. lia.
Qed.

Lemma runs_process_module_item (item : ModuleItem) (module_path : path)
    (st : state) :
  runs (upto 2) st (snd (process_module_item L C item module_path st)).
Proof.
  unfold process_module_item.
  match goal with
  | |- context [item_body L C item ?d ?r ?s] =>
      pose proof (runs_item_body item d r s) as H;
      destruct (item_body L C item d r s) as [[md raised] st2]
  end.
  simpl in H. apply (runs_mono _ (upto 2)) in H; [| apply item_effect_upto].
  assert (H0 : runs (upto 2) st st2).
  { eapply runs_trans; [| exact H]. stepwise. }
  destruct raised as [e|]; simpl; [| done].
  eapply runs_trans; [exact H0 |].
  apply runs_logger. destruct e; ranked.
Qed.

Lemma runs_process_module (module : Module_) (course_path : path) (st : state) :
  runs (upto 3) st (process_module L C module course_path st).
Proof.
  unfold process_module.
  destruct (get_module_items module) as [items | e]; [| stepwise].
  match goal with
  | |- context [fold_left ?f ?l ?a] =>
      pose proof (runs_fold (upto 3) f l a) as H;
      destruct (fold_left f l a) as [c st2]
  end.
  simpl in H.
  assert (Hloop : runs (upto 3)
            (mkdir
               (Path.join course_path
                  (sanitize_filename L
                     (Text.or_else (module_name module)
                        ("Untitled_Module_" +:+ Text.str (module_id module)))))
               (logger (ProcessingModule (module_name module)) st)) st2).
  { apply H. intros [c' st'] x. simpl.
    pose proof (runs_process_module_item x
      (Path.join course_path
         (sanitize_filename L
            (Text.or_else (module_name module)
               ("Untitled_Module_" +:+ Text.str (module_id module))))) st') as H'.
    destruct (process_module_item L C x _ st').
    simpl in *. eapply runs_mono; [| exact H']. unfold upto. intros; lia. }
  eapply runs_trans; [| apply runs_logger; ranked].
  eapply runs_trans; [| apply runs_write_text; ranked].
  eapply runs_trans; [| exact Hloop].
  stepwise.
Qed.

End Sequences.

Lemma runs_process_course (L : Lib) (course : Course) (out : path) (st : state) :
  runs (upto 4) st (process_course L course out st).
Proof.
  unfold process_course.
  eapply runs_trans; [| apply runs_logger; ranked].
  destruct (get_modules course) as [ms | []]; try stepwise.
  eapply runs_trans;
    [| apply runs_fold_state; intros st' m;
       eapply runs_mono; [| apply runs_process_module];
       unfold upto; intros; lia].
  stepwise.
Qed.

Lemma runs_process_courses (L : Lib) (courses : list Course) (out : path)
    (st : state) :
  runs (upto 4) st (process_courses L courses out st).
Proof.
  unfold process_courses. apply runs_fold_state.
  intros st' c. apply runs_process_course.
Qed.

Lemma runs_main (L : Lib) (args : Args) (S : Session) (st : state) :
  runs (upto 4) st (snd (main L args S st)).
Proof.
  unfold main.
  destruct (negb _ || negb _); [constructor |].
  destruct (get_current_user S) as [user | []]; cbn [snd]; try stepwise.
  destruct (select_courses S (course_ids args)) as [courses log].
  destruct courses as [|c cs]; cbn [snd]; [stepwise |].
  pose proof (runs_fold (upto 4) (run_course L S (output_dir args)) (c :: cs)
                ([], mkdir (output_dir args) st)) as H.
  destruct (fold_left (run_course L S (output_dir args)) (c :: cs) _)
    as [log' st2].
  cbn [snd] in *. eapply runs_trans; [apply runs_mkdir; ranked |].
  apply H. intros [lg st'] x. unfold run_course. cbn [snd].
  destruct (course_name x); cbn [snd]; [apply runs_process_course |].
  destruct (get_course S (course_id x)); cbn [snd];
    [apply runs_process_course | constructor].
Qed.

(** ** What a sequence of elementary effects keeps *)

Lemma runs_evolves (Q : event -> Prop) (st st' : state) :
  runs Q st st' -> evolves st st'.
Proof.
  induction 1 as [st | st1 st2 st3 H12 _ IH]; [apply evolves_refl |].
  eapply evolves_trans; [| exact IH].
  destruct H12 as [e st HQ Hw Ha | p st HQ | p c st HQ | f p st HQ Hf].
  - destruct e as [| | | | |i p [|]|]; try (by apply evolves_emit).
    apply evolves_failed. by apply Ha.
  - apply evolves_mkdir.
  - apply evolves_write_text.
  - by apply evolves_downloaded.
Qed.

(** The recorded effects are all allowed ones, and the files at the end
    are those at the start and those the recorded effects wrote. *)
Lemma runs_effects (Q : event -> Prop) (st st' : state) :
  runs Q st st' ->
  Forall Q (since st st') /\
  files st' = files st ∪ list_to_set (written (since st st')).
Proof.
  intros H. pose proof (runs_evolves _ _ _ H) as Hev.
  induction H as [st | st1 st2 st3 H12 H23 IH].
  - rewrite since_refl. split; [constructor | set_solver].
  - assert (H12' : evolves st1 st2).
    { apply (runs_evolves Q). by apply rtc_once. }
    pose proof (runs_evolves _ _ _ H23) as H23'.
    destruct (IH H23') as [IHQ IHf].
    rewrite (since_trans _ _ _ H12' H23'). unfold written in *.
    rewrite omap_app, list_to_set_app_L, IHf.
    assert (Hstep : Forall Q (since st1 st2) /\
                    files st2 = files st1 ∪ list_to_set (omap write (since st1 st2))).
    { destruct H12 as [e st HQ Hs Ha | p st HQ | p c st HQ | f p st HQ Hf];
        read_since.
      - split; [by constructor |]. rewrite Hs. set_solver.
      - split; [by constructor | set_solver].
      - split; [by constructor | set_solver].
      - split; [by constructor | set_solver]. }
    destruct Hstep as [HQ ->]. split; [by apply Forall_app | set_solver].
Qed.

(** ** The fetcher when the download succeeds *)

(** X1.  When the file is not registered and its download succeeds, the
    fetcher returns the path of the sanitized name under the target
    directory, the file exists there afterwards, the registry gains the
    identifier and one download was attempted.  Asked again for the same
    directory it returns the same path, attempts nothing and leaves the
    files as they are. *)
Theorem fetched_file_is_found_again (L : Lib) (C : Remote) (f : CanvasFile)
    (dir : path) (st : state) :
  id f ∉ DOWNLOADED_FILE_IDS_GLOBAL st ->
  download_result C (id f) (length (trace st)) = true ->
  let p := Path.join dir (sanitize_filename L (display_name f)) in
  let r := download_canvas_file_object L C f dir st in
  let r' := download_canvas_file_object L C f dir (snd r) in
  fst r = Some p /\
  p ∈ files (snd r) /\
  DOWNLOADED_FILE_IDS_GLOBAL (snd r) = {[id f]} ∪ DOWNLOADED_FILE_IDS_GLOBAL st /\
  download_attempts (since st (snd r)) = [id f] /\
  fst r' = fst r /\
  download_attempts (since (snd r) (snd r')) = [] /\
  files (snd r') = files (snd r).
Proof.
  intros Hout Hok p r r'.
  assert (Hr : r = (Some p, downloaded f p (logger (Downloading f p) st))).
  { unfold r, download_canvas_file_object.
    destruct (decide (id f ∈ DOWNLOADED_FILE_IDS_GLOBAL st)); [done |].
    by rewrite Hok. }
  assert (Hin : id f ∈ DOWNLOADED_FILE_IDS_GLOBAL (snd r)).
  { rewrite Hr. simpl. set_solver. }
  unfold r'. rewrite (fetcher_registered L C f dir (snd r) Hin).
  rewrite Hr. simpl. repeat split.
  - set_solver.
  - by read_since.
  - by read_since.
Qed.

Lemma fetched_file_is_found_again_witness :
  let p := Path.join (Path.join Examples.module_a "_files") "diagram.png" in
  let r :=
    download_canvas_file_object Examples.lib Examples.online Examples.diagram
      (Path.join Examples.module_a "_files") initial_state in
  let r' :=
    download_canvas_file_object Examples.lib Examples.online Examples.diagram
      (Path.join Examples.module_a "_files") (snd r) in
  fst r = Some p /\
  p ∈ files (snd r) /\
  DOWNLOADED_FILE_IDS_GLOBAL (snd r) =
    {[id Examples.diagram]} ∪ DOWNLOADED_FILE_IDS_GLOBAL initial_state /\
  download_attempts (since initial_state (snd r)) = [id Examples.diagram] /\
  fst r' = fst r /\
  download_attempts (since (snd r) (snd r')) = [] /\
  files (snd r') = files (snd r).
Proof.
  apply (fetched_file_is_found_again Examples.lib Examples.online
           Examples.diagram (Path.join Examples.module_a "_files") initial_state).
  - apply not_elem_of_empty.
  - reflexivity.
Defined.

(** ** The registry and the file system over a whole run *)

(** X2.  Whatever the arguments, the session and the state [main] starts
    in: the registry at the end is the registry at the start plus the
    identifiers downloaded with success, none of which was registered
    before or is downloaded twice; the files at the end are the files at
    the start plus the downloaded files and the documents written; no
    directory is lost. *)
Theorem main_keeps_registry_and_files_coherent (L : Lib) (args : Args)
    (S : Session) (st : state) :
  let st' := snd (main L args S st) in
  trace st' = trace st ++ since st st' /\
  DOWNLOADED_FILE_IDS_GLOBAL st' =
    DOWNLOADED_FILE_IDS_GLOBAL st ∪ list_to_set (downloads (since st st')) /\
  (forall i, i ∈ downloads (since st st') -> i ∉ DOWNLOADED_FILE_IDS_GLOBAL st) /\
  NoDup (downloads (since st st')) /\
  files st' = files st ∪ list_to_set (written (since st st')) /\
  dirs st ⊆ dirs st'.
Proof.
  intros st'. pose proof (runs_main L args S st) as H. fold st' in H.
  pose proof (runs_evolves _ _ _ H) as Hev.
  destruct (runs_effects _ _ _ H) as [_ Hfiles].
  repeat split.
  - apply (ev_trace _ _ Hev).
  - apply (ev_registry _ _ Hev).
  - intros i Hi. apply (ev_fresh _ _ Hev). by apply downloads_attempts.
  - apply (ev_once _ _ Hev).
  - exact Hfiles.
  - apply (ev_dirs _ _ Hev).
Qed.

(** ** What each component records *)

Lemma documents_upto (tr : list event) :
  Forall (upto 2) tr -> documents tr = [].
Proof.
  induction 1 as [|e tr He _ IH]; [done |].
  unfold documents in *. simpl.
  destruct e as [| | | | | |p c]; simpl; try done.
  unfold upto in He. simpl in He. lia.
Qed.

(** X3.  Effects flow downward.  The fetcher records only its own three
    messages and the download; the link rewriter adds the creation of the
    directory, the lookups of files and its own four messages, so it never
    fetches a page or an assignment; and neither of them, nor the rendering
    of an item, ever writes a document. *)
Theorem effects_flow_downward (L : Lib) (C : Remote) (st : state) :
  (forall f dir,
      Forall (upto 0) (since st (snd (download_canvas_file_object L C f dir st)))) /\
  (forall html dir readme,
      let new :=
        since st (snd (extract_and_download_embedded_files L C html dir readme st)) in
      Forall (upto 1) new /\
      (forall e, e ∈ new ->
         (forall slug, e <> GetPage slug) /\
         (forall i, e <> GetAssignment i) /\
         (forall p c, e <> WriteText p c))) /\
  (forall item module_path,
      let new := since st (snd (process_module_item L C item module_path st)) in
      Forall (upto 2) new /\ documents new = []).
Proof.
  split; [| split].
  - intros f dir. apply (runs_effects _ _ _ (runs_download_canvas_file_object L C f dir st)).
  - intros html dir readme new.
    destruct (runs_effects _ _ _ (runs_extract L C html dir readme st)) as [H _].
    fold new in H. split; [done |].
    intros e He. rewrite Forall_forall in H. specialize (H e He).
    unfold upto in H.
    repeat split; intros; intros ->; simpl in H; lia.
  - intros item module_path new.
    destruct (runs_effects _ _ _ (runs_process_module_item L C item module_path st))
      as [H _].
    fold new in H. split; [done | by apply documents_upto].
Qed.

(** ** The module writer *)

Lemma append_assoc (a b c : string) : (a +:+ b) +:+ c = a +:+ (b +:+ c).
Proof.
  induction a as [|x a IH]; [done |].
  change (String x ((a +:+ b) +:+ c) = String x (a +:+ (b +:+ c))).
  by rewrite IH.
Qed.

Section ModuleWriter.
Context (L : Lib) (C : Remote).

Lemma items_extend_document (module_path : path) (items : list ModuleItem)
    (acc : string * state) :
  exists rest,
    fst (fold_left
           (fun acc item =>
              let '(item_md, st') :=
                process_module_item L C item module_path (snd acc) in
              (fst acc +:+ item_md, st'))
           items acc) = fst acc +:+ rest.
Proof.
  revert acc. induction items as [|item items IH]; intros acc; simpl.
  - exists EmptyString. clear. induction (fst acc) as [|x a IHa]; [done |].
    change (String x a = String x (a +:+ EmptyString)). by rewrite <- IHa.
  - destruct (process_module_item L C item module_path (snd acc)) as [md st'].
    destruct (IH (fst acc +:+ md, st')) as [rest ->]. simpl.
    exists (md +:+ rest). apply append_assoc.
Qed.

(** X4.  The module writer makes the module's directory and writes exactly
    one document, the module's [README.md], whose text starts with the
    heading of the module.  When the listing of the items fails, the
    document is the heading followed by the error line, and nothing else
    happens: no item is rendered, no remote call is made. *)
Theorem module_document_is_written_once (module : Module_) (course_path : path)
    (st : state) :
  let module_path :=
    Path.join course_path
      (sanitize_filename L
         (Text.or_else (module_name module)
            ("Untitled_Module_" +:+ Text.str (module_id module)))) in
  let heading :=
    "# Module: " +:+ Text.fmt (module_name module) +:+ Text.nl +:+ Text.nl in
  let st' := process_module L C module course_path st in
  (exists rest,
      documents (since st st') =
      [(Path.join module_path "README.md", heading +:+ rest)]) /\
  module_path ∈ dirs st' /\
  Path.join module_path "README.md" ∈ files st' /\
  (forall e,
      get_module_items module = Raise e ->
      since st st' =
      [ Log (ProcessingModule (module_name module));
        Mkdir module_path;
        Log (ModuleItemsFailed (module_name module));
        WriteText (Path.join module_path "README.md")
          (heading +:+ "**ERROR: Could not retrieve items for this module.**" +:+
           Text.nl) ]).
Proof.
  intros module_path heading st'.
  assert (Hdir : module_path ∈ dirs st').
  { pose proof (runs_evolves _ _ _ (runs_process_module L C module course_path st))
      as Hev.
    unfold st', process_module. fold module_path.
    destruct (get_module_items module); simpl.
    - match goal with
      | |- context [fold_left ?f ?l ?a] =>
          pose proof (evolves_fold f l a) as H; destruct (fold_left f l a) as [c st2]
      end.
      simpl in *. apply (ev_dirs _ _ (H (fun acc x =>
        ltac:(destruct acc as [c' s']; simpl;
              pose proof (evolves_process_module_item L C x module_path s') as H';
              destruct (process_module_item L C x module_path s'); exact H')))).
      apply mkdir_creates.
    - apply mkdir_creates. }
  assert (Hdoc : exists rest,
             documents (since st st') =
             [(Path.join module_path "README.md", heading +:+ rest)]).
  { unfold st', process_module. fold module_path. fold heading.
    destruct (get_module_items module) as [items | e].
    - pose proof (items_extend_document module_path items
                    (heading,
                     mkdir module_path
                       (logger (ProcessingModule (module_name module)) st)))
        as [rest Hrest].
      pose proof (runs_fold (upto 2)
                    (fun acc item =>
                       let '(item_md, st') :=
                         process_module_item L C item module_path (snd acc) in
                       (fst acc +:+ item_md, st'))
                    items
                    (heading,
                     mkdir module_path
                       (logger (ProcessingModule (module_name module)) st))) as Hruns.
      destruct (fold_left _ items _) as [content st2]. cbn [fst snd] in *.
      subst content. exists rest.
      assert (Hitems : runs (upto 2)
                (mkdir module_path
                   (logger (ProcessingModule (module_name module)) st)) st2).
      { apply Hruns. intros [c' s'] x. cbn [snd].
        pose proof (runs_process_module_item L C x module_path s') as H'.
        destruct (process_module_item L C x module_path s'). exact H'. }
      destruct (runs_effects _ _ _ Hitems) as [Hall _].
      pose proof (runs_evolves _ _ _ Hitems) as Hev.
      erewrite since_app.
      2:{ simpl. rewrite (ev_trace _ _ Hev). simpl.
          rewrite <- !app_assoc. reflexivity. }
      pose proof (documents_upto _ Hall) as Hnone.
      unfold documents in *. rewrite !omap_app, Hnone. reflexivity.
    - exists ("**ERROR: Could not retrieve items for this module.**" +:+ Text.nl).
      by read_since. }
  split; [exact Hdoc |]. split; [exact Hdir |]. split.
  - destruct Hdoc as [rest Hdoc].
    destruct (runs_effects _ _ _ (runs_process_module L C module course_path st))
      as [_ Hfiles].
    fold st' in Hfiles. rewrite Hfiles. apply elem_of_union_r.
    apply elem_of_list_to_set. unfold written.
    assert (Hin : (Path.join module_path "README.md", heading +:+ rest) ∈
                  documents (since st st')) by (rewrite Hdoc; by left).
    unfold documents in Hin. apply list_elem_of_omap in Hin as (e & He & Hd).
    apply list_elem_of_omap. exists e. split; [done |].
    destruct e; simpl in *; try done. by injection Hd as -> _.
  - intros e He. unfold st', process_module. fold module_path. fold heading.
    rewrite He. by read_since.
Qed.

End ModuleWriter.

Lemma module_document_is_written_once_witness :
  let module :=
    {| module_id := 3; module_name := Some "Week 1";
       get_module_items := Raise OtherError |} in
  since initial_state
    (process_module Examples.lib Examples.online module ["out"; "Course"]
       initial_state) =
  [ Log (ProcessingModule (Some "Week 1"));
    Mkdir ["out"; "Course"; "Week 1"];
    Log (ModuleItemsFailed (Some "Week 1"));
    WriteText ["out"; "Course"; "Week 1"; "README.md"]
      (("# Module: " +:+ "Week 1" +:+ Text.nl +:+ Text.nl) +:+
       "**ERROR: Could not retrieve items for this module.**" +:+ Text.nl) ].
Proof.
  intros module.
  apply (proj2 (proj2 (proj2 (module_document_is_written_once Examples.lib
           Examples.online module ["out"; "Course"] initial_state))) OtherError).
  reflexivity.
Defined.

(** The one document of a module and its text. *)
Lemma process_module_documents (L : Lib) (C : Remote) (module : Module_)
    (course_path : path) (st : state) :
  let module_path :=
    Path.join course_path
      (sanitize_filename L
         (Text.or_else (module_name module)
            ("Untitled_Module_" +:+ Text.str (module_id module)))) in
  let heading :=
    "# Module: " +:+ Text.fmt (module_name module) +:+ Text.nl +:+ Text.nl in
  documents (since st (process_module L C module course_path st)) =
  [(Path.join module_path "README.md",
    match get_module_items module with
    | Ok items =>
        fst (fold_left
               (fun acc item =>
                  let '(item_md, st') :=
                    process_module_item L C item module_path (snd acc) in
                  (fst acc +:+ item_md, st'))
               items
               (heading,
                mkdir module_path
                  (logger (ProcessingModule (module_name module)) st)))
    | Raise _ =>
        heading +:+ "**ERROR: Could not retrieve items for this module.**" +:+
        Text.nl
    end)].
Proof.
  intros module_path heading.
  unfold process_module. fold module_path. fold heading.
  destruct (get_module_items module) as [items | e]; [| by read_since].
  pose proof (runs_fold (upto 2)
                (fun acc item =>
                   let '(item_md, st') :=
                     process_module_item L C item module_path (snd acc) in
                   (fst acc +:+ item_md, st'))
                items
                (heading,
                 mkdir module_path
                   (logger (ProcessingModule (module_name module)) st))) as Hruns.
  destruct (fold_left _ items _) as [content st2]. cbn [fst snd] in *.
  assert (Hitems : runs (upto 2)
            (mkdir module_path
               (logger (ProcessingModule (module_name module)) st)) st2).
  { apply Hruns. intros [c' s'] x. cbn [snd].
    pose proof (runs_process_module_item L C x module_path s') as H'.
    destruct (process_module_item L C x module_path s'). exact H'. }
  destruct (runs_effects _ _ _ Hitems) as [Hall _].
  pose proof (runs_evolves _ _ _ Hitems) as Hev.
  erewrite since_app.
  2:{ simpl. rewrite (ev_trace _ _ Hev). simpl.
      rewrite <- !app_assoc. reflexivity. }
  pose proof (documents_upto _ Hall) as Hnone.
  unfold documents in *. rewrite !omap_app, Hnone. reflexivity.
Qed.

(** ** The course driver *)

Lemma finished_upto (tr : list event) :
  Forall (upto 3) tr -> omap finished tr = [] /\ omap started tr = [].
Proof.
  induction 1 as [|e tr He _ [IH1 IH2]]; [done |].
  change (omap finished (e :: tr))
    with (match finished e with Some y => y :: omap finished tr
          | None => omap finished tr end).
  change (omap started (e :: tr))
    with (match started e with Some y => y :: omap started tr
          | None => omap started tr end).
  rewrite IH1, IH2.
  destruct e as [m| | | | | |]; try done.
  destruct m; try done; unfold upto in He; simpl in He; lia.
Qed.

Section CourseDriver.
Context (L : Lib).

Lemma modules_documents (C : Remote) (course_path : path)
    (modules : list Module_) (st : state) :
  map fst
    (documents
       (since st
          (fold_left (fun st' module => process_module L C module course_path st')
             modules st))) =
  map (readme_of L course_path) modules.
Proof.
  revert st. induction modules as [|m modules IH]; intros st; simpl.
  - by rewrite since_refl.
  - pose proof (evolves_process_module L C m course_path st) as H1.
    pose proof (evolves_fold_state
                  (fun st' module => process_module L C module course_path st')
                  modules (process_module L C m course_path st)
                  (fun st' x => evolves_process_module L C x course_path st')) as H2.
    rewrite (since_trans _ _ _ H1 H2). unfold documents in *.
    rewrite omap_app, map_app, IH.
    pose proof (process_module_documents L C m course_path st) as Hdoc.
    unfold documents in Hdoc. cbv zeta in Hdoc. by rewrite Hdoc.
Qed.

(** The effects of a course are those of its modules between the opening
    message and directory and the closing message. *)
Lemma process_course_since (course : Course) (out : path) (st : state) :
  exists inner,
    since st (process_course L course out st) =
    [Log (CourseStarted (course_name course) (course_id course));
     Mkdir (course_path_of L out course)] ++ inner ++
    [Log (CourseFinished (course_name course))] /\
    (omap finished inner = [] /\ omap started inner = []) /\
    (forall modules, get_modules course = Ok modules ->
       inner =
       since (mkdir (course_path_of L out course)
                (logger (CourseStarted (course_name course) (course_id course)) st))
         (fold_left
            (fun st' module =>
               process_module L (remote course) module (course_path_of L out course) st')
            modules
            (mkdir (course_path_of L out course)
               (logger (CourseStarted (course_name course) (course_id course)) st)))) /\
    (forall e, get_modules course = Raise e ->
       inner =
       [Log match e with
            | Unauthorized => CourseUnauthorized (course_name course)
            | Forbidden => CourseForbidden (course_name course)
            | _ => CourseError (course_name course)
            end]).
Proof.
  unfold process_course. fold (course_path_of L out course).
  set (st1 := mkdir (course_path_of L out course)
                (logger (CourseStarted (course_name course) (course_id course)) st)).
  destruct (get_modules course) as [modules | e].
  - set (st2 := fold_left _ modules st1).
    assert (Hruns : runs (upto 3) st1 st2).
    { apply runs_fold_state. intros st' m. apply runs_process_module. }
    pose proof (runs_evolves _ _ _ Hruns) as Hev.
    exists (since st1 st2). split; [| split; [| split]].
    + apply since_app. simpl. rewrite (ev_trace _ _ Hev). simpl.
      by rewrite <- !app_assoc.
    + apply finished_upto, (runs_effects _ _ _ Hruns).
    + by intros ms [= <-].
    + by intros e [=].
  - exists [Log match e with
                | Unauthorized => CourseUnauthorized (course_name course)
                | Forbidden => CourseForbidden (course_name course)
                | _ => CourseError (course_name course)
                end].
    split; [| split; [| split]].
    + destruct e; by read_since.
    + by destruct e.
    + by intros ms [=].
    + by intros e' [= <-].
Qed.

Lemma process_course_brackets (course : Course) (out : path) (st : state) :
  omap started (since st (process_course L course out st)) = [course_name course] /\
  omap finished (since st (process_course L course out st)) = [course_name course].
Proof.
  destruct (process_course_since course out st)
    as (inner & Hs & [Hfin Hsta] & _).
  rewrite Hs, !omap_app, Hfin, Hsta. done.
Qed.

(** X5.  The course driver makes the course's directory, opens with the
    start message and closes with the end message whatever happens in
    between.  When the listing of the modules succeeds it writes one
    document per module, each module's [README.md], in the order of the
    listing; when the listing fails it writes none, downloads nothing and
    leaves the registry and the files as they were. *)
Theorem course_writes_one_document_per_module (course : Course) (out : path)
    (st : state) :
  let st' := process_course L course out st in
  course_path_of L out course ∈ dirs st' /\
  omap started (since st st') = [course_name course] /\
  omap finished (since st st') = [course_name course] /\
  (forall modules,
      get_modules course = Ok modules ->
      map fst (documents (since st st')) =
      map (readme_of L (course_path_of L out course)) modules) /\
  (forall e,
      get_modules course = Raise e ->
      documents (since st st') = [] /\
      download_attempts (since st st') = [] /\
      DOWNLOADED_FILE_IDS_GLOBAL st' = DOWNLOADED_FILE_IDS_GLOBAL st /\
      files st' = files st).
Proof.
  intros st'.
  destruct (process_course_since course out st)
    as (inner & Hs & [Hfin Hsta] & Hok & Herr).
  fold st' in Hs. rewrite Hs.
  pose proof (runs_process_course L course out st) as Hruns. fold st' in Hruns.
  pose proof (runs_evolves _ _ _ Hruns) as Hev.
  destruct (runs_effects _ _ _ Hruns) as [_ Hfiles].
  split; [| split; [| split; [| split]]].
  - subst st'. unfold process_course. fold (course_path_of L out course).
    set (st1 := mkdir (course_path_of L out course) _).
    assert (H1 : course_path_of L out course ∈ dirs st1) by apply mkdir_creates.
    change (dirs (logger ?m ?s)) with (dirs s).
    destruct (get_modules course) as [modules | e].
    + refine (ev_dirs _ _ _ _ H1). apply evolves_fold_state.
      intros st2 m. apply evolves_process_module.
    + by destruct e.
  - rewrite !omap_app, Hsta. reflexivity.
  - rewrite !omap_app, Hfin. reflexivity.
  - intros modules Hm. unfold documents. rewrite !omap_app. simpl.
    rewrite app_nil_r. rewrite (Hok modules Hm).
    apply (modules_documents (remote course)).
  - intros e He. rewrite (Herr e He) in *.
    assert (Hw : written (since st st') = []) by (rewrite Hs; by destruct e).
    assert (Hd : downloads (since st st') = []) by (rewrite Hs; by destruct e).
    split; [by destruct e |]. split; [by destruct e |]. split.
    + rewrite (ev_registry _ _ Hev), Hd. set_solver.
    + rewrite Hfiles, Hw. set_solver.
Qed.

End CourseDriver.

(** ** The final loop of [main] *)

Section FinalLoop.
Context (L : Lib) (S : Session) (out : path).

Lemma runs_run_course (acc : list main_event * state) (course : Course) :
  runs (upto 4) (snd acc) (snd (run_course L S out acc course)).
Proof.
  destruct acc as [lg st]. unfold run_course. cbn [snd].
  destruct (course_name course); cbn [snd]; [apply runs_process_course |].
  destruct (get_course S (course_id course)); cbn [snd];
    [apply runs_process_course | constructor].
Qed.

Lemma run_course_brackets (acc : list main_event * state) (course : Course) :
  omap started (since (snd acc) (snd (run_course L S out acc course))) =
  map course_name (option_list (processed_course S course)) /\
  omap finished (since (snd acc) (snd (run_course L S out acc course))) =
  map course_name (option_list (processed_course S course)).
Proof.
  destruct acc as [lg st]. unfold run_course, processed_course. cbn [snd].
  destruct (course_name course) as [n|] eqn:Hn; cbn [snd option_list map].
  - apply process_course_brackets.
  - destruct (get_course S (course_id course)) as [full | e];
      cbn [snd option_list map].
    + apply process_course_brackets.
    + by rewrite since_refl.
Qed.

Lemma course_loop_brackets (courses : list Course)
    (acc : list main_event * state) :
  omap started
    (since (snd acc) (snd (fold_left (run_course L S out) courses acc))) =
  map course_name (omap (processed_course S) courses) /\
  omap finished
    (since (snd acc) (snd (fold_left (run_course L S out) courses acc))) =
  map course_name (omap (processed_course S) courses).
Proof.
  revert acc. induction courses as [|c courses IH]; intros acc.
  - simpl. by rewrite since_refl.
  - cbn [fold_left].
    pose proof (runs_evolves _ _ _ (runs_run_course acc c)) as H1.
    pose proof (runs_evolves _ _ _
                  (runs_fold (upto 4) (run_course L S out) courses
                     (run_course L S out acc c) runs_run_course)) as H2.
    rewrite (since_trans _ _ _ H1 H2), !omap_app.
    destruct (IH (run_course L S out acc c)) as [-> ->].
    destruct (run_course_brackets acc c) as [-> ->].
    change (omap (processed_course S) (c :: courses))
      with (match processed_course S c with
            | Some y => y :: omap (processed_course S) courses
            | None => omap (processed_course S) courses
            end).
    by destruct (processed_course S c).
Qed.

End FinalLoop.

(** X6.  Once the credentials are given and the connection is made, [main]
    carries every selected course to its end, in the order of the
    selection: the courses opened and the courses closed, read off the
    messages of the course driver, are both exactly the selected courses
    that could be processed (a selected course without a name counts when
    fetching it again succeeds, and is skipped otherwise).  No failure
    inside a course keeps a later course from being processed. *)
Theorem main_finishes_every_course (L : Lib) (args : Args) (S : Session)
    (st : state) (user : string) :
  Text.truthy_opt (api_url args) = true ->
  Text.truthy_opt (api_key args) = true ->
  get_current_user S = Ok user ->
  let st' := snd (main L args S st) in
  let processed :=
    omap (processed_course S) (fst (select_courses S (course_ids args))) in
  omap started (since st st') = map course_name processed /\
  omap finished (since st st') = map course_name processed.
Proof.
  intros Hurl Hkey Huser. unfold main. rewrite Hurl, Hkey, Huser.
  cbn [negb orb].
  destruct (select_courses S (course_ids args)) as [courses log].
  cbn [fst]. destruct courses as [|c cs]; cbn [snd].
  - split; by read_since.
  - pose proof (course_loop_brackets L S (output_dir args) (c :: cs)
                  ([], mkdir (output_dir args) st)) as Hloop.
    pose proof (runs_fold (upto 4) (run_course L S (output_dir args)) (c :: cs)
                  ([], mkdir (output_dir args) st)
                  (runs_run_course L S (output_dir args))) as Hruns.
    destruct (fold_left (run_course L S (output_dir args)) (c :: cs) _)
      as [log' st2].
    cbn [snd] in *.
    rewrite (since_trans _ _ _ (evolves_mkdir (output_dir args) st)
               (runs_evolves _ _ _ Hruns)), !omap_app.
    destruct Hloop as [-> ->].
    split; by read_since.
Qed.

(** ** Documents under a reliable network *)

Section Reproducible.
Context (L : Lib) (C : Remote) (Hnet : reliable C).

Lemma fetcher_reliable (f : CanvasFile) (dir : path) (st : state) :
  fst (download_canvas_file_object L C f dir st) =
  Some (Path.join dir (sanitize_filename L (display_name f))).
Proof.
  unfold download_canvas_file_object.
  destruct (decide (id f ∈ DOWNLOADED_FILE_IDS_GLOBAL st)); [done |].
  by rewrite Hnet.
Qed.

Lemma process_file_id_reliable (html : string) (dir readme : path)
    (file_id : string) (w : rewriting) (st1 st2 : state) :
  fst (process_file_id L C html dir readme file_id (w, st1)) =
  fst (process_file_id L C html dir readme file_id (w, st2)).
Proof.
  assert (Hone : forall st,
    fst (process_file_id L C html dir readme file_id (w, st)) =
    match Text.int file_id with
    | None => w
    | Some i =>
        match get_file C i with
        | Ok f =>
            rewrite_links L html file_id f
              (Path.join dir (sanitize_filename L (display_name f))) readme w
        | Raise _ => w
        end
    end).
  { intros st. unfold process_file_id.
    destruct (Text.int file_id) as [i|]; [| done].
    destruct (decide (i ∈ DOWNLOADED_FILE_IDS_GLOBAL st)).
    - by destruct (get_file C i) as [f | []].
    - destruct (get_file C i) as [f | []]; try done.
      pose proof (fetcher_reliable f dir (emit (GetFile i) st)) as Hf.
      destruct (download_canvas_file_object L C f dir (emit (GetFile i) st))
        as [[q|] st']; simpl in Hf; [| done].
      by injection Hf as ->. }
  by rewrite !Hone.
Qed.

Lemma extract_reliable (html : option string) (dir readme : path)
    (st1 st2 : state) :
  fst (extract_and_download_embedded_files L C html dir readme st1) =
  fst (extract_and_download_embedded_files L C html dir readme st2).
Proof.
  unfold extract_and_download_embedded_files.
  destruct html as [h|]; [| done].
  destruct (negb (Text.truthy h)); [done |].
  assert (Hfold : forall ids w s1 s2,
    fst (fold_left (fun ws file_id => process_file_id L C h dir readme file_id ws)
           ids (w, s1)) =
    fst (fold_left (fun ws file_id => process_file_id L C h dir readme file_id ws)
           ids (w, s2))).
  { induction ids as [|i ids IH]; intros w s1 s2; [done |].
    cbn [fold_left].
    pose proof (process_file_id_reliable h dir readme i w s1 s2) as Hstep.
    destruct (process_file_id L C h dir readme i (w, s1)) as [w1 s1'].
    destruct (process_file_id L C h dir readme i (w, s2)) as [w2 s2'].
    simpl in Hstep. subst w2. apply IH. }
  specialize (Hfold (found_file_ids L h)
                {| modified_html := h; downloaded_item_links_md := [] |}
                (mkdir dir st1) (mkdir dir st2)).
  destruct (fold_left _ _ (_, mkdir dir st1)) as [w1 s1'].
  destruct (fold_left _ _ (_, mkdir dir st2)) as [w2 s2'].
  simpl in Hfold. by subst w2.
Qed.

Lemma render_html_reliable (h : string) (dir readme : path) (st1 st2 : state) :
  fst (render_html L C h dir readme st1) = fst (render_html L C h dir readme st2).
Proof.
  unfold render_html.
  pose proof (extract_reliable (Some h) dir readme st1 st2) as H.
  destruct (extract_and_download_embedded_files L C (Some h) dir readme st1)
    as [[ph1 links1] s1].
  destruct (extract_and_download_embedded_files L C (Some h) dir readme st2)
    as [[ph2 links2] s2].
  simpl in H. by injection H as -> ->.
Qed.

Lemma item_body_reliable (item : ModuleItem) (dir readme : path)
    (st1 st2 : state) :
  fst (item_body L C item dir readme st1) = fst (item_body L C item dir readme st2).
Proof.
  assert (Hrender : forall h s1 s2 (k : string -> string),
    fst (let '(md', s) := render_html L C h dir readme s1 in (k md', s)) =
    fst (let '(md', s) := render_html L C h dir readme s2 in (k md', s))).
  { intros h s1 s2 k. pose proof (render_html_reliable h dir readme s1 s2) as H.
    destruct (render_html L C h dir readme s1), (render_html L C h dir readme s2).
    simpl in *. by subst. }
  unfold item_body.
  destruct (String.eqb (type item) "Page").
  { destruct (get_page C (page_url item)) as [page | e]; [| done].
    destruct (Text.truthy_opt (body page)); [| done].
    pose proof (Hrender (default EmptyString (body page))
                  (emit (GetPage (page_url item)) st1)
                  (emit (GetPage (page_url item)) st2) (fun x => x)) as H.
    destruct (render_html L C _ dir readme (emit _ st1)),
             (render_html L C _ dir readme (emit _ st2)).
    simpl in *. by subst. }
  destruct (String.eqb (type item) "File").
  { destruct (get_file C (content_id item)) as [f | e]; [| done].
    pose proof (fetcher_reliable f dir (emit (GetFile (content_id item)) st1)) as H1.
    pose proof (fetcher_reliable f dir (emit (GetFile (content_id item)) st2)) as H2.
    destruct (download_canvas_file_object L C f dir (emit _ st1)) as [[q1|] s1];
      simpl in H1; [| done].
    destruct (download_canvas_file_object L C f dir (emit _ st2)) as [[q2|] s2];
      simpl in H2; [| done].
    injection H1 as ->. injection H2 as ->. done. }
  destruct (String.eqb (type item) "ExternalUrl"); [done |].
  destruct (String.eqb (type item) "SubHeader"); [done |].
  destruct (String.eqb (type item) "Assignment").
  { destruct (get_assignment C (content_id item)) as [a | e]; [| done].
    destruct (Text.truthy_opt (description a)); [| done].
    pose proof (render_html_reliable (default EmptyString (description a))
                  dir readme
                  (emit (GetAssignment (content_id item)) st1)
                  (emit (GetAssignment (content_id item)) st2)) as H.
    destruct (render_html L C _ dir readme (emit _ st1)),
             (render_html L C _ dir readme (emit _ st2)).
    simpl in *. by subst. }
  destruct (String.eqb (type item) "Discussion");
    [by destruct (html_url item) |].
  destruct (String.eqb (type item) "Quiz");
    [by destruct (html_url item) |].
  done.
Qed.

Lemma process_module_item_reliable (item : ModuleItem) (module_path : path)
    (st1 st2 : state) :
  fst (process_module_item L C item module_path st1) =
  fst (process_module_item L C item module_path st2).
Proof.
  unfold process_module_item.
  match goal with
  | |- context [item_body L C item ?d ?r (mkdir ?d (logger ?m st1))] =>
      pose proof (item_body_reliable item d r (mkdir d (logger m st1))
                    (mkdir d (logger m st2))) as H;
      destruct (item_body L C item d r (mkdir d (logger m st1))) as [[md1 r1] s1];
      destruct (item_body L C item d r (mkdir d (logger m st2))) as [[md2 r2] s2]
  end.
  simpl in H. injection H as -> ->. by destruct r2.
Qed.

Lemma items_reliable (module_path : path) (items : list ModuleItem)
    (content : string) (st1 st2 : state) :
  fst (fold_left
         (fun acc item =>
            let '(item_md, st') :=
              process_module_item L C item module_path (snd acc) in
            (fst acc +:+ item_md, st'))
         items (content, st1)) =
  fst (fold_left
         (fun acc item =>
            let '(item_md, st') :=
              process_module_item L C item module_path (snd acc) in
            (fst acc +:+ item_md, st'))
         items (content, st2)).
Proof.
  revert content st1 st2.
  induction items as [|item items IH]; intros content st1 st2; [done |].
  cbn [fold_left]. cbn [fst snd].
  pose proof (process_module_item_reliable item module_path st1 st2) as H.
  destruct (process_module_item L C item module_path st1) as [md1 s1].
  destruct (process_module_item L C item module_path st2) as [md2 s2].
  simpl in H. subst md2. apply IH.
Qed.

End Reproducible.

(** X7.  Under a network on which no download fails, what the program
    writes does not depend on the state it runs in: the link rewriter
    returns the same fragment and the same side list, an item gives the same
    Markdown, and a module's document has the same path and the same text,
    whichever files are already registered, downloaded or recorded. *)
Theorem documents_do_not_depend_on_the_registry (L : Lib) (C : Remote)
    (st1 st2 : state) :
  reliable C ->
  (forall html dir readme,
      fst (extract_and_download_embedded_files L C html dir readme st1) =
      fst (extract_and_download_embedded_files L C html dir readme st2)) /\
  (forall item module_path,
      fst (process_module_item L C item module_path st1) =
      fst (process_module_item L C item module_path st2)) /\
  (forall module course_path,
      documents (since st1 (process_module L C module course_path st1)) =
      documents (since st2 (process_module L C module course_path st2))).
Proof.
  intros Hnet. split; [| split].
  - intros html dir readme. by apply extract_reliable.
  - intros item module_path. by apply process_module_item_reliable.
  - intros module course_path. rewrite !process_module_documents.
    destruct (get_module_items module) as [items | e]; [| done].
    do 2 f_equal. by apply items_reliable.
Qed.

Lemma course_writes_one_document_per_module_witness :
  map fst
    (documents
       (since initial_state
          (process_course Examples.lib Examples.logic ["out"] initial_state))) =
  map (readme_of Examples.lib
         (course_path_of Examples.lib ["out"] Examples.logic))
    [Examples.week1].
Proof.
  apply (proj1 (proj2 (proj2 (proj2
           (course_writes_one_document_per_module Examples.lib Examples.logic
              ["out"] initial_state))))).
  reflexivity.
Defined.

Lemma main_finishes_every_course_witness :
  let st' := snd (main Examples.lib Examples.args Examples.session initial_state) in
  omap started (since initial_state st') = [Some "Logic"; Some "Sets"] /\
  omap finished (since initial_state st') = [Some "Logic"; Some "Sets"].
Proof.
  exact (main_finishes_every_course Examples.lib Examples.args Examples.session
           initial_state "Ada" eq_refl eq_refl eq_refl).
Defined.

Lemma documents_do_not_depend_on_the_registry_witness :
  documents
    (since initial_state
       (process_module Examples.lib Examples.online Examples.week1
          ["out"; "Logic"] initial_state)) =
  documents
    (since Examples.after_image_42
       (process_module Examples.lib Examples.online Examples.week1
          ["out"; "Logic"] Examples.after_image_42)).
Proof.
  apply (proj2 (proj2 (documents_do_not_depend_on_the_registry Examples.lib
           Examples.online initial_state Examples.after_image_42
           (fun i t => eq_refl)))).
Defined.

(** ** The items of a module *)

Lemma item_body_file (L : Lib) (C : Remote) (item : ModuleItem) (d r : path) (st : state) :
  type item = "File" ->
  item_body L C item d r st =
  match get_file C (content_id item) with
  | Raise e => ((EmptyString, Some e), emit (GetFile (content_id item)) st)
  | Ok f =>
      match download_canvas_file_object L C f d (emit (GetFile (content_id item)) st) with
      | (Some q, st2) =>
          (("* **File:** [" +:+ display_name f +:+ "](" +:+ relative_path_of q r +:+ ")" +:+ Text.nl, None), st2)
      | (None, st2) => ((EmptyString, None), st2)
      end
  end.
Proof.
  intros Ht. unfold item_body. rewrite Ht. reflexivity.
Qed.

(** X8.  A File item whose file the course knows is written as one bullet
    whose link is [_files/] followed by the sanitized name, whatever the
    module: when the file is registered already the bullet is written with
    no download and no new file; when it is not and the download succeeds,
    the file is in the module's [_files] directory and is registered; when
    the download fails the item leaves only the separator in the document,
    no failure of the item is logged, and nothing is registered. *)
Theorem file_item_links_into_files_directory (L : Lib) (C : Remote)
    (item : ModuleItem) (module_path : path) (st : state) (n : string) :
  type item = "File" ->
  file_display_name C (content_id item) = Ok n ->
  let r := process_module_item L C item module_path st in
  let name := sanitize_filename L n in
  let line :=
    "* **File:** [" +:+ n +:+ "](" +:+
    Path.to_string (Path.join ["_files"] name) +:+ ")" +:+ Text.nl in
  (content_id item ∈ DOWNLOADED_FILE_IDS_GLOBAL st ->
     fst r = line +:+ separator /\
     download_attempts (since st (snd r)) = [] /\
     files (snd r) = files st) /\
  (content_id item ∉ DOWNLOADED_FILE_IDS_GLOBAL st ->
     download_result C (content_id item) (length (trace st) + 3) = true ->
     fst r = line +:+ separator /\
     Path.join (Path.join module_path "_files") name ∈ files (snd r) /\
     content_id item ∈ DOWNLOADED_FILE_IDS_GLOBAL (snd r)) /\
  (content_id item ∉ DOWNLOADED_FILE_IDS_GLOBAL st ->
     download_result C (content_id item) (length (trace st) + 3) = false ->
     fst r = separator /\
     omap item_failure (since st (snd r)) = [] /\
     files (snd r) = files st /\
     DOWNLOADED_FILE_IDS_GLOBAL (snd r) = DOWNLOADED_FILE_IDS_GLOBAL st).
Proof.
  intros Htype Hname r name line.
  subst r. unfold process_module_item.
  rewrite (item_body_file _ _ _ _ _ _ Htype).
  unfold get_file. rewrite Hname.
  unfold download_canvas_file_object. cbn [id display_name].
  change (DOWNLOADED_FILE_IDS_GLOBAL (emit ?e ?s)) with (DOWNLOADED_FILE_IDS_GLOBAL s).
  change (DOWNLOADED_FILE_IDS_GLOBAL (mkdir ?e ?s)) with (DOWNLOADED_FILE_IDS_GLOBAL s).
  change (DOWNLOADED_FILE_IDS_GLOBAL (logger ?e ?s)) with (DOWNLOADED_FILE_IDS_GLOBAL s).
  assert (Hlen : forall a b c,
            length (trace (emit a (mkdir b (logger c st)))) =
            (length (trace st) + 3)%nat).
  { intros. simpl. rewrite !length_app. simpl. lia. }
  rewrite Hlen. fold name.
  split; [| split].
  - intros Hin. destruct (decide _) as [_ | Hout]; [| done].
    cbn [fst snd]. rewrite relative_path_in_files. fold line.
    split; [done |]. split; [by read_since | done].
  - intros Hout Hok. destruct (decide _) as [Hin | _]; [done |].
    rewrite Hok. cbn [fst snd]. rewrite relative_path_in_files.
    split; [done |]. split; simpl; set_solver.
  - intros Hout Hko. destruct (decide _) as [Hin | _]; [done |].
    rewrite Hko. cbn [fst snd]. split; [done |]. split; [by read_since | done].
Qed.

Lemma file_item_links_into_files_directory_witness :
  let r :=
    process_module_item Examples.lib Examples.online Examples.handout
      Examples.module_a initial_state in
  fst r =
    ("* **File:** [" +:+ "diagram.png" +:+ "](" +:+
     Path.to_string
       (Path.join ["_files"] (sanitize_filename Examples.lib "diagram.png")) +:+
     ")" +:+ Text.nl) +:+ separator /\
  Path.join (Path.join Examples.module_a "_files")
    (sanitize_filename Examples.lib "diagram.png") ∈ files (snd r) /\
  content_id Examples.handout ∈ DOWNLOADED_FILE_IDS_GLOBAL (snd r).
Proof.
  apply (proj1 (proj2 (file_item_links_into_files_directory Examples.lib
           Examples.online Examples.handout Examples.module_a initial_state
           "diagram.png" eq_refl eq_refl))).
  - apply not_elem_of_empty.
  - reflexivity.
Defined.

Lemma item_effect_no_failure (tr : list event) :
  Forall item_effect tr -> omap item_failure tr = [].
Proof.
  induction 1 as [|e tr He _ IH]; [done |].
  change (omap item_failure (e :: tr))
    with (match item_failure e with Some y => y :: omap item_failure tr
          | None => omap item_failure tr end).
  rewrite IH.
  destruct He as [H | [(s & ->) | [(i & ->) | (t & n & ->)]]]; try done.
  destruct e as [m| | | | | |]; try done.
  destruct m; try done; unfold upto in H; simpl in H; lia.
Qed.

(** X9.  An item is logged as failed exactly when the fetch of its own
    content raises, and then once, with the message of that exception.  A
    file embedded in a page or in an assignment that cannot be found or
    downloaded never makes the item fail. *)
Theorem item_fails_only_on_its_own_fetch (L : Lib) (C : Remote)
    (item : ModuleItem) (module_path : path) (st : state) :
  omap item_failure (since st (snd (process_module_item L C item module_path st))) =
  match content_fetch_error C item with
  | Some e => [failure_message e (title item)]
  | None => []
  end.
Proof.
  unfold process_module_item.
  match goal with
  | |- context [item_body L C item ?d ?r ?s] =>
      pose proof (item_body_raised L C item d r s) as Hraised;
      pose proof (runs_item_body L C item d r s) as Hruns;
      destruct (item_body L C item d r s) as [[md raised] st2]
  end.
  cbn [fst snd] in *. subst raised.
  destruct (runs_effects _ _ _ Hruns) as [Hall _].
  pose proof (runs_evolves _ _ _ Hruns) as Hev.
  apply item_effect_no_failure in Hall.
  destruct (content_fetch_error C item) as [e|]; cbn [snd].
  - erewrite since_app.
    2:{ simpl. rewrite (ev_trace _ _ Hev). simpl.
        rewrite <- !app_assoc. reflexivity. }
    rewrite !omap_app, Hall. by destruct e.
  - erewrite since_app.
    2:{ rewrite (ev_trace _ _ Hev). simpl.
        rewrite <- !app_assoc. reflexivity. }
    rewrite !omap_app, Hall. done.
Qed.

(** X10.  An item that is neither a page, a file nor an assignment (an
    external link, a sub-header, a discussion, a quiz or an unsupported
    type) makes no call to the remote service and downloads nothing: the
    registry and the files stay as they were, and its Markdown is the same
    for every course and every state.  The [_files] directory of the module
    is made all the same. *)
Theorem link_items_stay_local (L : Lib) (C : Remote)
    (item : ModuleItem) (module_path : path) (st : state) :
  type item <> "Page" -> type item <> "File" -> type item <> "Assignment" ->
  let r := process_module_item L C item module_path st in
  filter remote_call (since st (snd r)) = [] /\
  DOWNLOADED_FILE_IDS_GLOBAL (snd r) = DOWNLOADED_FILE_IDS_GLOBAL st /\
  files (snd r) = files st /\
  Path.join module_path "_files" ∈ dirs (snd r) /\
  forall C' st', fst (process_module_item L C' item module_path st') = fst r.
Proof.
  intros Hp Hf Ha r. subst r.
  apply String.eqb_neq in Hp, Hf, Ha.
  unfold process_module_item, item_body. rewrite Hp, Hf, Ha.
  assert (Hdir : forall s m,
            Path.join module_path "_files" ∈
            dirs (mkdir (Path.join module_path "_files") (logger m s))).
  { intros. apply mkdir_creates. }
  repeat (destruct (String.eqb (type item) _));
    try destruct (html_url item) as [u|]; cbn [fst snd];
    (split; [by read_since | split; [done | split; [done | split; [apply Hdir | done]]]]).
Qed.

Lemma link_items_stay_local_witness :
  let r :=
    process_module_item Examples.lib Examples.online Examples.forum
      Examples.module_a initial_state in
  filter remote_call (since initial_state (snd r)) = [] /\
  DOWNLOADED_FILE_IDS_GLOBAL (snd r) = DOWNLOADED_FILE_IDS_GLOBAL initial_state /\
  files (snd r) = files initial_state /\
  Path.join Examples.module_a "_files" ∈ dirs (snd r).
Proof.
  assert (H : type Examples.forum <> "Page" /\ type Examples.forum <> "File" /\
              type Examples.forum <> "Assignment") by (repeat split; discriminate).
  destruct H as (Hp & Hf & Ha).
  pose proof (link_items_stay_local Examples.lib Examples.online Examples.forum
                Examples.module_a initial_state Hp Hf Ha) as (H1 & H2 & H3 & H4 & _).
  repeat split; assumption.
Defined.

(** ** The selection of the courses *)






(** ** Files and their directories *)

Lemma ancestors_firstn (p : path) (n k : nat) :
  (k <= n)%nat -> firstn k p ∈ Path.ancestors p n.
Proof.
  induction n as [|n IH]; intros Hk.
  - replace k with 0%nat by lia. by left.
  - destruct (decide (k = Datatypes.S n)) as [-> | Hne]; [by left |].
    right. apply IH. lia.
Qed.

Lemma made_mkdir (dir : path) (st : state) : made dir (mkdir dir st).
Proof.
  split; [apply mkdir_creates |].
  simpl. apply elem_of_union_l, elem_of_list_to_set.
  unfold Path.parent. rewrite removelast_firstn_len.
  apply ancestors_firstn. lia.
Qed.

Lemma made_evolves (dir : path) (st st' : state) :
  evolves st st' -> made dir st -> made dir st'.
Proof. intros Hev [H1 H2]. split; by apply (ev_dirs _ _ Hev). Qed.

Lemma made_join (dir : path) (name : string) (st : state) :
  made dir st -> Path.parent (Path.join dir name) ∈ dirs st.
Proof.
  intros [H1 H2]. unfold Path.join, Path.parent.
  destruct (Text.truthy name); [| done]. by rewrite removelast_last.
Qed.

Lemma housed_emit (e : event) (st : state) : housed st -> housed (emit e st).
Proof. done. Qed.

Lemma housed_mkdir (p : path) (st : state) : housed st -> housed (mkdir p st).
Proof. intros H q Hq. simpl. apply elem_of_union_r, H, Hq. Qed.

Lemma housed_write_text (p : path) (c : string) (st : state) :
  Path.parent p ∈ dirs st -> housed st -> housed (write_text p c st).
Proof.
  intros Hp H q [->%elem_of_singleton | Hq]%elem_of_union; [done | by apply H].
Qed.

Lemma housed_downloaded (f : CanvasFile) (p : path) (st : state) :
  Path.parent p ∈ dirs st -> housed st -> housed (downloaded f p st).
Proof.
  intros Hp H q [->%elem_of_singleton | Hq]%elem_of_union; [done | by apply H].
Qed.

Section Housing.
Context (L : Lib) (C : Remote).

Lemma housed_download_canvas_file_object (f : CanvasFile) (dir : path)
    (st : state) :
  made dir st -> housed st ->
  housed (snd (download_canvas_file_object L C f dir st)).
Proof.
  intros Hdir H. unfold download_canvas_file_object.
  destruct (decide _); [done |].
  destruct (download_result C _ _); [| done].
  apply housed_downloaded; [| done]. by apply made_join.
Qed.

Lemma housed_process_file_id (html : string) (dir readme : path)
    (file_id : string) (ws : rewriting * state) :
  made dir (snd ws) -> housed (snd ws) ->
  housed (snd (process_file_id L C html dir readme file_id ws)).
Proof.
  destruct ws as [w st]. cbn [snd]. intros Hdir H. unfold process_file_id.
  destruct (Text.int file_id) as [i|]; [| done].
  destruct (decide _).
  - by destruct (get_file C i) as [f | []].
  - destruct (get_file C i) as [f | []]; try done.
    pose proof (housed_download_canvas_file_object f dir (emit (GetFile i) st)
                  Hdir H) as Hf.
    by destruct (download_canvas_file_object L C f dir (emit (GetFile i) st))
      as [[q|] st'].
Qed.

Lemma housed_extract (html : option string) (dir readme : path) (st : state) :
  housed st ->
  housed (snd (extract_and_download_embedded_files L C html dir readme st)).
Proof.
  intros H. unfold extract_and_download_embedded_files.
  destruct html as [h|]; [| done].
  destruct (negb (Text.truthy h)); [done |].
  pose proof (fold_left_invariant
                (fun ws : rewriting * state => made dir (snd ws) /\ housed (snd ws))
                (fun ws file_id => process_file_id L C h dir readme file_id ws)
                (found_file_ids L h)
                ({| modified_html := h; downloaded_item_links_md := [] |},
                 mkdir dir st)) as Hfold.
  destruct (fold_left _ _ _) as [w st2]. cbn [snd] in *.
  apply Hfold.
  - split; [apply made_mkdir | by apply housed_mkdir].
  - intros ws i _ [Hd Hh]. split.
    + by apply (made_evolves _ _ _ (evolves_process_file_id L C h dir readme i ws)).
    + by apply housed_process_file_id.
Qed.

Lemma housed_render_html (h : string) (dir readme : path) (st : state) :
  housed st -> housed (snd (render_html L C h dir readme st)).
Proof.
  intros H. unfold render_html.
  pose proof (housed_extract (Some h) dir readme st H) as H'.
  by destruct (extract_and_download_embedded_files L C (Some h) dir readme st)
    as [[ph links] st1].
Qed.

Lemma housed_item_body (item : ModuleItem) (dir readme : path) (st : state) :
  made dir st -> housed st -> housed (snd (item_body L C item dir readme st)).
Proof.
  intros Hdir H. unfold item_body.
  destruct (String.eqb (type item) "Page").
  { destruct (get_page C (page_url item)) as [page | e]; [| done].
    destruct (Text.truthy_opt (body page)); [| done].
    pose proof (housed_render_html (default EmptyString (body page)) dir readme
                  (emit (GetPage (page_url item)) st) H) as H'.
    by destruct (render_html L C _ dir readme _). }
  destruct (String.eqb (type item) "File").
  { destruct (get_file C (content_id item)) as [f | e]; [| done].
    pose proof (housed_download_canvas_file_object f dir
                  (emit (GetFile (content_id item)) st) Hdir H) as H'.
    by destruct (download_canvas_file_object L C f dir _) as [[q|] s]. }
  destruct (String.eqb (type item) "ExternalUrl"); [done |].
  destruct (String.eqb (type item) "SubHeader"); [done |].
  destruct (String.eqb (type item) "Assignment").
  { destruct (get_assignment C (content_id item)) as [a | e]; [| done].
    destruct (Text.truthy_opt (description a)); [| done].
    pose proof (housed_render_html (default EmptyString (description a)) dir
                  readme (emit (GetAssignment (content_id item)) st) H) as H'.
    by destruct (render_html L C _ dir readme _). }
  destruct (String.eqb (type item) "Discussion");
    [by destruct (html_url item) |].
  destruct (String.eqb (type item) "Quiz");
    [by destruct (html_url item) |].
  done.
Qed.

Lemma housed_process_module_item (item : ModuleItem) (module_path : path)
    (st : state) :
  housed st -> housed (snd (process_module_item L C item module_path st)).
Proof.
  intros H. unfold process_module_item.
  match goal with
  | |- context [item_body L C item ?d ?r ?s] =>
      pose proof (housed_item_body item d r s (made_mkdir _ _)
                    (housed_mkdir _ _ (housed_emit _ _ H))) as H';
      destruct (item_body L C item d r s) as [[md [e|]] st2]
  end; done.
Qed.

Lemma housed_process_module (module : Module_) (course_path : path)
    (st : state) :
  housed st -> housed (process_module L C module course_path st).
Proof.
  intros H. unfold process_module.
  set (module_path := Path.join course_path _).
  set (st1 := mkdir module_path _).
  assert (H1 : housed st1) by by apply housed_mkdir.
  assert (Hreadme : forall s, evolves st1 s ->
            Path.parent (Path.join module_path "README.md") ∈ dirs s).
  { intros s Hev. apply made_join, (made_evolves _ _ _ Hev), made_mkdir. }
  destruct (get_module_items module) as [items | e].
  - match goal with
    | |- context [fold_left ?f items ?a] =>
        pose proof (fold_left_invariant
                      (fun acc : string * state =>
                         evolves st1 (snd acc) /\ housed (snd acc))
                      f items a) as Hfold;
        destruct (fold_left f items a) as [content st2]
    end.
    cbn [snd] in Hfold. destruct Hfold as [Hev H2].
    + split; [apply evolves_refl | done].
    + intros [c s] x _ [Hev Hs]. cbn [snd] in *.
      pose proof (housed_process_module_item x module_path s Hs) as H'.
      pose proof (evolves_process_module_item L C x module_path s) as Hev'.
      destruct (process_module_item L C x module_path s) as [md s'].
      cbn [snd] in *. split; [by eapply evolves_trans | done].
    + apply housed_emit, housed_write_text; [by apply Hreadme | done].
  - apply housed_write_text; [| by apply housed_emit].
    apply Hreadme, evolves_logger.
Qed.

End Housing.

Lemma housed_process_course (L : Lib) (course : Course) (out : path)
    (st : state) :
  housed st -> housed (process_course L course out st).
Proof.
  intros H. unfold process_course. apply housed_emit.
  destruct (get_modules course) as [modules | e].
  - apply fold_left_invariant; [by apply housed_mkdir, housed_emit |].
    intros s m _ Hs. by apply housed_process_module.
  - destruct e; by apply housed_emit, housed_mkdir, housed_emit.
Qed.

(** X12.  Every file lies in a directory that exists: when this holds of
    the state [main] starts in, it holds of the state it ends in.  No
    download and no document is ever written into a directory the program
    has not made. *)
Theorem files_are_written_into_made_directories (L : Lib) (args : Args)
    (S : Session) (st : state) :
  housed st -> housed (snd (main L args S st)).
Proof.
  intros H. unfold main.
  destruct (negb _ || negb _); [done |].
  destruct (get_current_user S) as [user | []]; cbn [snd];
    try by apply housed_mkdir.
  destruct (select_courses S (course_ids args)) as [courses log].
  destruct courses as [|c cs]; cbn [snd]; [by apply housed_mkdir |].
  pose proof (fold_left_invariant
                (fun acc : list main_event * state => housed (snd acc))
                (run_course L S (output_dir args)) (c :: cs)
                ([], mkdir (output_dir args) st)) as Hfold.
  destruct (fold_left _ (c :: cs) _) as [log' st2]. cbn [snd] in *.
  apply Hfold; [by apply housed_mkdir |].
  intros [lg s] x _ Hs. cbn [snd] in *. unfold run_course.
  destruct (course_name x); cbn [snd]; [by apply housed_process_course |].
  destruct (get_course S (course_id x)); cbn [snd];
    [by apply housed_process_course | done].
Qed.

Lemma files_are_written_into_made_directories_witness :
  housed (snd (main Examples.lib Examples.args Examples.session initial_state)).
Proof.
  apply (files_are_written_into_made_directories Examples.lib Examples.args
           Examples.session initial_state).
  intros p Hp. by apply not_elem_of_empty in Hp.
Defined.

(** ** Fragments whose files cannot be had *)

(** X13.  When none of the files a fragment refers to can be had (the
    lookup of its name fails, or it is not registered and its download
    fails), the link rewriter returns the fragment as it was given, with
    its links to Canvas untouched and an empty side list, and the registry
    and the files are as before. *)
Theorem links_stay_when_no_file_is_fetched (L : Lib) (C : Remote)
    (html : string) (dir readme : path) (st : state) :
  (forall x i, x ∈ found_file_ids L html -> Text.int x = Some i ->
               unavailable C st i) ->
  let r := extract_and_download_embedded_files L C (Some html) dir readme st in
  fst r = (Some html, []) /\
  DOWNLOADED_FILE_IDS_GLOBAL (snd r) = DOWNLOADED_FILE_IDS_GLOBAL st /\
  files (snd r) = files st.
Proof.
  intros Hids r. subst r. unfold extract_and_download_embedded_files.
  destruct (negb (Text.truthy html)); [done |].
  pose proof (fold_left_invariant
                (fun ws : rewriting * state =>
                   fst ws = {| modified_html := html;
                               downloaded_item_links_md := [] |} /\
                   DOWNLOADED_FILE_IDS_GLOBAL (snd ws) =
                     DOWNLOADED_FILE_IDS_GLOBAL st /\
                   files (snd ws) = files st)
                (fun ws file_id => process_file_id L C html dir readme file_id ws)
                (found_file_ids L html)
                ({| modified_html := html; downloaded_item_links_md := [] |},
                 mkdir dir st)) as Hfold.
  destruct (fold_left _ _ _) as [w st2]. cbn [fst snd] in *.
  destruct Hfold as (-> & Hreg & Hfiles).
  - done.
  - intros [w' s] x Hx (Hw & Hreg' & Hfiles'). cbn [fst snd] in *. subst w'.
    unfold process_file_id.
    destruct (Text.int x) as [i|] eqn:Hi; [| done].
    specialize (Hids x i Hx Hi).
    unfold get_file.
    destruct (decide (i ∈ DOWNLOADED_FILE_IDS_GLOBAL s)) as [Hin | Hout].
    + destruct Hids as [(e & ->) | [Hno _]]; [destruct e; simpl; done |].
      rewrite Hreg' in Hin. destruct (Hno Hin).
    + destruct (file_display_name C i) as [n | e] eqn:Hn;
        [| destruct e; simpl; done].
      destruct Hids as [(e & He) | [_ Hfail]]; [congruence |].
      unfold download_canvas_file_object. cbn [id display_name].
      change (DOWNLOADED_FILE_IDS_GLOBAL (emit ?e ?s'))
        with (DOWNLOADED_FILE_IDS_GLOBAL s').
      destruct (decide _) as [Hin | _]; [done |].
      by rewrite Hfail.
  - cbn [modified_html downloaded_item_links_md]. by rewrite set_iter_nil.
Qed.

Lemma links_stay_when_no_file_is_fetched_witness :
  let r :=
    Examples.rewrite Examples.flaky Examples.image_42 Examples.module_a
      initial_state in
  fst r = (Some (Examples.html Examples.image_42), []) /\
  DOWNLOADED_FILE_IDS_GLOBAL (snd r) = DOWNLOADED_FILE_IDS_GLOBAL initial_state /\
  files (snd r) = files initial_state.
Proof.
  apply (links_stay_when_no_file_is_fetched Examples.lib Examples.flaky
           (Examples.html Examples.image_42)).
  intros x i Hx Hi. vm_compute in Hx.
  apply list_elem_of_singleton in Hx. subst x.
  vm_compute in Hi. injection Hi as <-.
  right. split; [apply not_elem_of_empty | intros t; reflexivity].
Defined.

(** ** The text of a module's document *)

Section Listing.
Context (L : Lib) (C : Remote).

Lemma process_module_item_separator (item : ModuleItem) (module_path : path)
    (st : state) :
  exists md, fst (process_module_item L C item module_path st) = md +:+ separator.
Proof.
  unfold process_module_item.
  destruct (item_body L C item _ _ _) as [[md [e|]] st2]; simpl; eauto.
Qed.

Lemma items_fragments (module_path : path) (items : list ModuleItem)
    (acc : string * state) :
  exists frags,
    fst (fold_left
           (fun acc item =>
              let '(item_md, st') :=
                process_module_item L C item module_path (snd acc) in
              (fst acc +:+ item_md, st'))
           items acc) = fst acc +:+ fold_right String.append EmptyString frags /\
    Forall2
      (fun item frag =>
         exists st, frag = fst (process_module_item L C item module_path st))
      items frags.
Proof.
  revert acc. induction items as [|item items IH]; intros acc; cbn [fold_left].
  - exists []. split; [| constructor]. simpl. clear.
    induction (fst acc) as [|x a IHa]; [done |].
    change (String x a = String x (a +:+ EmptyString)). by rewrite <- IHa.
  - destruct (process_module_item L C item module_path (snd acc)) as [md st']
      eqn:Hitem.
    destruct (IH (fst acc +:+ md, st')) as (frags & -> & Hall).
    exists (md :: frags). split.
    + cbn [fst fold_right]. apply append_assoc.
    + constructor; [| done]. exists (snd acc). by rewrite Hitem.
Qed.

(** X14.  When the listing of the items succeeds, the module's document
    is the heading followed by one fragment per item, in the order of the
    listing: each fragment is what [process_module_item] returns for that
    item and ends with the separator.  No item is left out or repeated,
    whatever fails inside it. *)
Theorem module_document_lists_every_item (module : Module_)
    (course_path : path) (st : state) (items : list ModuleItem) :
  get_module_items module = Ok items ->
  let module_path := Path.parent (readme_of L course_path module) in
  exists frags,
    documents (since st (process_module L C module course_path st)) =
    [(readme_of L course_path module,
      ("# Module: " +:+ Text.fmt (module_name module) +:+ Text.nl +:+ Text.nl) +:+
      fold_right String.append EmptyString frags)] /\
    Forall2
      (fun item frag =>
         (exists st', frag = fst (process_module_item L C item module_path st')) /\
         exists md, frag = md +:+ separator)
      items frags.
Proof.
  intros Hitems module_path.
  rewrite process_module_documents, Hitems.
  assert (Hpath : module_path =
            Path.join course_path
              (sanitize_filename L
                 (Text.or_else (module_name module)
                    ("Untitled_Module_" +:+ Text.str (module_id module))))).
  { unfold module_path, readme_of, Path.parent.
    change (Path.join ?d "README.md") with (d ++ ["README.md"]).
    by rewrite removelast_last. }
  rewrite <- Hpath.
  destruct (items_fragments module_path items
              ("# Module: " +:+ Text.fmt (module_name module) +:+ Text.nl +:+ Text.nl,
               mkdir module_path
                 (logger (ProcessingModule (module_name module)) st)))
    as (frags & Hdoc & Hall).
  exists frags. split.
  - unfold readme_of. rewrite <- Hpath. by rewrite Hdoc.
  - eapply Forall2_impl; [exact Hall |].
    intros item frag (st' & ->). split; [eauto |].
    apply process_module_item_separator.
Qed.

End Listing.

Lemma module_document_lists_every_item_witness :
  let module_path :=
    Path.parent (readme_of Examples.lib ["out"; "Logic"] Examples.week1) in
  exists frags,
    documents
      (since initial_state
         (process_module Examples.lib Examples.online Examples.week1
            ["out"; "Logic"] initial_state)) =
    [(readme_of Examples.lib ["out"; "Logic"] Examples.week1,
      ("# Module: " +:+ Text.fmt (module_name Examples.week1) +:+ Text.nl +:+
       Text.nl) +:+
      fold_right String.append EmptyString frags)] /\
    Forall2
      (fun item frag =>
         (exists st',
            frag =
            fst (process_module_item Examples.lib Examples.online item
                   module_path st')) /\
         exists md, frag = md +:+ separator)
      [Examples.handout; Examples.forum] frags.
Proof.
  apply (module_document_lists_every_item Examples.lib Examples.online
           Examples.week1 ["out"; "Logic"] initial_state
           [Examples.handout; Examples.forum]).
  reflexivity.
Defined.
